(** * Emmet adapter for the editor host: model and verified properties

  A shallow embedding of [emmet_sublime.py].  Python values that the
  adapter manipulates are modelled by Rocq data: [int] by [Z], [str] by
  [string], dictionaries by [gmap string value], objects that are shared
  and mutated in place by references into a store, floating-point results
  by [spec_float].  Calls that may raise are run in a state-and-exception
  monad.  The editor host ([sublime]), the [syntax] helper module and the
  [emmet] engine are collaborators whose code is not part of the adapter:
  they enter as records of functions. *)

From Stdlib Require Import ZArith Lia Ascii String List DecimalString.
From Stdlib Require Import Floats.SpecFloat.
From stdpp Require Import base gmap strings list.

Open Scope string_scope.
Open Scope Z_scope.

(** ** Python built-ins used by the adapter *)

Module Py.

(** Characters that cannot be written inside a string literal here. *)
Definition dquote : ascii := "034"%char.
Definition squote : ascii := "039"%char.

(** [c in chars] for a one-character [c]. *)
Fixpoint char_in (c : ascii) (chars : string) : bool :=
  match chars with
  | EmptyString => false
  | String d rest => if Ascii.eqb c d then true else char_in c rest
  end.

(** [s.lstrip(chars)]: drop leading characters that occur in [chars]. *)
Fixpoint lstrip (chars s : string) : string :=
  match s with
  | EmptyString => EmptyString
  | String c rest => if char_in c chars then lstrip chars rest else s
  end.

(** [s.rstrip(chars)]: drop trailing characters that occur in [chars]. *)
Fixpoint rstrip (chars s : string) : string :=
  match s with
  | EmptyString => EmptyString
  | String c rest =>
      match rstrip chars rest with
      | EmptyString => if char_in c chars then EmptyString else String c EmptyString
      | kept => String c kept
      end
  end.

(** [s.strip(chars)]: both ends. *)
Definition strip (chars s : string) : string := lstrip chars (rstrip chars s).

(** Truth value of a [str]: non-empty. *)
Definition str_truthy (s : string) : bool :=
  match s with EmptyString => false | _ => true end.

(** ['%d' % n] for an [int]. *)
Definition format_d (n : Z) : string := NilZero.string_of_int (Z.to_int n).

(** Index normalisation of a slice bound against a length. *)
Definition slice_bound (len i : Z) : Z :=
  if i <? 0 then Z.max 0 (len + i) else Z.min i len.

(** [s[start:stop]]. *)
Definition slice (s : string) (start stop : Z) : string :=
  let len := Z.of_nat (String.length s) in
  let a := slice_bound len start in
  let b := slice_bound len stop in
  substring (Z.to_nat a) (Z.to_nat (b - a)) s.

(** *** ['%.4f' % x] for a [float]

    A finite double is [m * 2^e]; the conversion prints the exact value
    rounded to four decimals, ties to even. *)

Definition digit (d : Z) : ascii := ascii_of_N (48 + Z.to_N d).

(** [m * 2^e * 10^4] rounded to the nearest integer, ties to even. *)
Definition scaled4 (m : positive) (e : Z) : Z :=
  if 0 <=? e then Z.pos m * 2 ^ e * 10000
  else
    let d := 2 ^ (- e) in
    let q := (Z.pos m * 10000) / d in
    let r := (Z.pos m * 10000) mod d in
    if 2 * r <? d then q
    else if d <? 2 * r then q + 1
    else if Z.even q then q else q + 1.

Definition frac4 (n : Z) : string :=
  let f := n mod 10000 in
  String (digit (f / 1000))
    (String (digit (f / 100 mod 10))
       (String (digit (f / 10 mod 10))
          (String (digit (f mod 10)) EmptyString))).

Definition fixed4 (n : Z) : string :=
  NilZero.string_of_uint (N.to_uint (Z.to_N (n / 10000))) ++ "." ++ frac4 n.

Definition sign_str (s : bool) : string := if s then "-" else "".

Definition format_4f (x : spec_float) : string :=
  match x with
  | S754_nan => "nan"
  | S754_infinity s => sign_str s ++ "inf"
  | S754_zero s => sign_str s ++ fixed4 0
  | S754_finite s m e => sign_str s ++ fixed4 (scaled4 m e)
  end.

(** *** Observations on strings used in the statements *)

Fixpoint last_char (s : string) : option ascii :=
  match s with
  | EmptyString => None
  | String c EmptyString => Some c
  | String _ rest => last_char rest
  end.

Definition first_char (s : string) : option ascii :=
  match s with
  | EmptyString => None
  | String c _ => Some c
  end.

Fixpoint count_char (c : ascii) (s : string) : nat :=
  match s with
  | EmptyString => O
  | String d rest => (if Ascii.eqb c d then 1 else 0) + count_char c rest
  end.

End Py.

(** ** The editor host

  [sublime.Region] keeps its two ends in the order given; [begin] and
  [end] are the smaller and the larger one.  A [sublime.View] is known
  only through the methods the adapter calls. *)

Module Sublime.

Record Region := mkRegion { a : Z; b : Z }.

Definition begin (r : Region) : Z := Z.min (a r) (b r).
Definition end_ (r : Region) : Z := Z.max (a r) (b r).

Record View := mkView {
  size : Z;
  substr : Region -> string;
  line : Z -> Region;
  match_selector : Z -> string -> bool;
  extract_scope : Z -> Region
}.

End Sublime.

Import Sublime.

(** ** Values, objects and exceptions *)

(** Dictionaries that are shared between caller and callee live in a
  store and are passed by reference. *)
Definition ref := positive.

(** The three output callbacks the module defines. *)
Inductive callback := Fn_field | Fn_field_preview | Fn_escape_text.

(** The dictionary built by [get_tag_context]; [close] may be missing.
  An attribute without a value carries [None]. *)
Record TagContext := mkTagContext {
  ctx_name : string;
  ctx_attributes : gmap string (option string);
  ctx_open : Region;
  ctx_close : option Region
}.

Inductive value :=
| VNone
| VBool (p : bool)
| VInt (n : Z)
| VStr (s : string)
| VFunc (f : callback)
| VRef (l : ref)                (* a dictionary in the store *)
| VTag (t : TagContext)         (* result of [get_tag_context] *)
| VCss (name : string)          (* [{'name': name}] of [get_css_context] *)
| VRegion (r : Region)          (* a [sublime.Region] *)
| VAttributes (attrs : gmap string (option string)).
                                (* the [attributes] of a tag context *)

Inductive exn :=
| KeyError (key : string)
| IndexError
| TypeError
| ValueError
| UnboundLocalError (name : string)
| ZeroDivisionError
| EngineError (what : string).  (* raised inside the emmet package *)

(** How a call ends.  [Diverge] stands for a loop that has not finished
  within the iterations it was given. *)
Inductive outcome (A : Type) :=
| Ret (x : A)
| Raise (e : exn)
| Diverge.
Arguments Ret {A} x.
Arguments Raise {A} e.
Arguments Diverge {A}.

Definition obind {A B} (m : outcome A) (k : A -> outcome B) : outcome B :=
  match m with
  | Ret x => k x
  | Raise e => Raise e
  | Diverge => Diverge
  end.

(** The result of a call into a collaborator that returns or raises. *)
Definition called {A} (r : exn + A) : outcome A :=
  match r with
  | inl e => Raise e
  | inr x => Ret x
  end.

(** [try: body / except: handler] with a bare [except]. *)
Definition try_except {A} (body : outcome A) (handler : exn -> outcome A) : outcome A :=
  match body with
  | Raise e => handler e
  | other => other
  end.

(** What the abbreviation scanner returns: an object with mutable
  [start], [end] and [location]. *)
Record AbbrData := mkAbbrData {
  abbreviation : string;
  start : Z;
  end' : Z;
  location : Z
}.

(** Functions of the module registered with the host as listeners. *)
Inductive listener := On_handle_settings_change.

(** One call of the abbreviation scanner, as seen from outside. *)
Record ExtractCall := mkExtractCall {
  call_text : string;
  call_pos : Z;
  call_opt : ref;
  call_options : gmap string value;
  call_result : exn + option AbbrData
}.

(** Module globals, the object store and the scanner calls made so far. *)
Record state := mkState {
  heap : gmap ref (gmap string value);
  emmet_cache : ref;
  settings : option (gmap string value);
  on_change : list (string * listener);
  extract_log : list ExtractCall
}.

Definition set_heap (h : gmap ref (gmap string value)) (st : state) : state :=
  mkState h (emmet_cache st) (settings st) (on_change st) (extract_log st).
Definition set_emmet_cache (l : ref) (st : state) : state :=
  mkState (heap st) l (settings st) (on_change st) (extract_log st).
Definition set_settings (s : option (gmap string value)) (st : state) : state :=
  mkState (heap st) (emmet_cache st) s (on_change st) (extract_log st).
Definition add_on_change (key : string) (f : listener) (st : state) : state :=
  mkState (heap st) (emmet_cache st) (settings st) ((key, f) :: on_change st) (extract_log st).
Definition log_extract (c : ExtractCall) (st : state) : state :=
  mkState (heap st) (emmet_cache st) (settings st) (on_change st) (extract_log st ++ [c]).

(** *** The monad of adapter calls *)

Definition M (A : Type) : Type := state -> outcome A * state.

Definition ret {A} (x : A) : M A := fun st => (Ret x, st).
Definition raise {A} (e : exn) : M A := fun st => (Raise e, st).
Definition lift {A} (o : outcome A) : M A := fun st => (o, st).
Definition bind {A B} (m : M A) (k : A -> M B) : M B :=
  fun st =>
    match m st with
    | (Ret x, st') => k x st'
    | (Raise e, st') => (Raise e, st')
    | (Diverge, st') => (Diverge, st')
    end.
Definition gets {A} (f : state -> A) : M A := fun st => (Ret (f st), st).
Definition modify (f : state -> state) : M unit := fun st => (Ret tt, f st).

Notation "'let*' x ':=' m 'in' k" := (bind m (fun x => k))
  (at level 10, x pattern, m at level 100, k at level 200).
Notation "m ';;' k" := (bind m (fun _ => k))
  (at level 100, right associativity).

(** A new dictionary object. *)
Definition new_dict (d : gmap string value) : M ref :=
  fun st =>
    let l := fresh (dom (heap st)) in
    (Ret l, set_heap (<[l := d]> (heap st)) st).

(** The dictionary behind a reference. *)
Definition deref (l : ref) : M (gmap string value) :=
  gets (fun st => heap st !!! l).

(** [d[key]] *)
Definition getitem (l : ref) (key : string) : M value :=
  let* d := deref l in
  match d !! key with
  | Some v => ret v
  | None => raise (KeyError key)
  end.

(** [d[key] = v] *)
Definition setitem (l : ref) (key : string) (v : value) : M unit :=
  modify (fun st => set_heap (<[l := <[key := v]> (heap st !!! l)]> (heap st)) st).

(** [d.get(key, default)] on dictionary contents. *)
Definition dict_get (d : gmap string value) (key : string) (dflt : value) : value :=
  default dflt (d !! key).

(** Truth value of an object. *)
Definition truthy (h : gmap ref (gmap string value)) (v : value) : bool :=
  match v with
  | VNone => false
  | VBool p => p
  | VInt n => negb (n =? 0)
  | VStr s => Py.str_truthy s
  | VFunc _ => true
  | VRef l => negb (bool_decide (h !!! l = (∅ : gmap string value)))
  | VTag _ => true
  | VCss _ => true
  | VRegion r => negb (a r =? b r)
  | VAttributes attrs => negb (bool_decide (attrs = (∅ : gmap string (option string))))
  end.

(** The entries of the dictionaries that are kept as values. *)
Definition attribute_entries (attrs : gmap string (option string)) : gmap string value :=
  from_option VStr VNone <$> attrs.

Definition tag_entries (t : TagContext) : gmap string value :=
  let entries :=
    <[ "name" := VStr (ctx_name t) ]>
      (<[ "attributes" := VAttributes (ctx_attributes t) ]>
         (<[ "open" := VRegion (ctx_open t) ]> ∅)) in
  match ctx_close t with
  | Some r => <[ "close" := VRegion r ]> entries
  | None => entries
  end.

(** [v == s] for a string literal [s]. *)
Definition eq_str (v : value) (s : string) : bool :=
  match v with
  | VStr t => String.eqb t s
  | _ => false
  end.

(** ** Collaborators

  The [syntax] module and the [emmet] package belong to the plugin but
  not to the adapter; the host is the editor. *)

Record Host := mkHost {
  (** [sublime.active_window().active_view()], [None] when there is no
      view or the view is not valid *)
  active_view : option View;
  (** contents of [sublime.load_settings(name)] *)
  load_settings : string -> gmap string value
}.

Record Syntax := mkSyntax {
  info : View -> Z -> string -> gmap string value;
  from_pos : View -> Z -> value;
  is_inline : View -> Z -> bool;
  is_jsx : value -> bool;
  is_html : value -> bool;
  is_xml : value -> bool
}.

Record Attribute := mkAttribute {
  attr_name : string;
  attr_value : option string
}.

Record MatchedTag := mkMatchedTag {
  tag_name : string;
  tag_attributes : list Attribute;
  tag_open : list Z;
  tag_close : option (list Z)
}.

Record Emmet := mkEmmet {
  (** [extract(text, pos, options)]: reads the options, returns a match,
      nothing, or raises on malformed input *)
  extract : string -> Z -> gmap string value -> exn + option AbbrData;
  (** [expand(abbr, opt, global_config)]: may fill the cache it is given *)
  expand_abbreviation : string -> ref -> value -> M string;
  (** [html_matcher.match(code, pos, {'xml': xml})] *)
  html_match : string -> Z -> value -> option MatchedTag;
  (** [math_expression.extract(code, pos, options)]: a span or nothing;
      raises for an offset it cannot read at *)
  extract_math : string -> Z -> value -> exn + option (Z * Z);
  (** [math_expression.evaluate(expr)]: a float, or raises *)
  evaluate : string -> exn + spec_float
}.

(** ** The adapter *)

Definition JSX_PREFIX : string := "<".

Section Adapter.

Context (host : Host) (syntax : Syntax) (emmet : Emmet).

(** [emmet_cache = {}] at module level: rebinding the global to a new,
    empty dictionary. *)
Definition handle_settings_change : M unit :=
  let* fresh_cache := new_dict ∅ in
  modify (set_emmet_cache fresh_cache).

Definition get_settings (key : string) (dflt : value) : M value :=
  let* loaded := gets settings in
  let* handle :=
    match loaded with
    | None =>
        let handle := load_settings host "Emmet.sublime-settings" in
        modify (set_settings (Some handle));;
        modify (add_on_change "config" On_handle_settings_change);;
        ret handle
    | Some handle => ret handle
    end in
  ret (dict_get handle key dflt).

Definition field (index : Z) (placeholder : string) : string :=
  if Py.str_truthy placeholder
  then "${" ++ Py.format_d index ++ ":" ++ placeholder ++ "}"
  else "${" ++ Py.format_d index ++ "}".

Definition field_preview (index : Z) (placeholder : string) : string :=
  placeholder.

Fixpoint escape_text (text : string) : string :=
  match text with
  | EmptyString => EmptyString
  | String c rest =>
      if Ascii.eqb c "$"%char
      then String "\"%char (String "$"%char (escape_text rest))
      else String c (escape_text rest)
  end.

Definition to_region (rng : list Z) : outcome Region :=
  match rng with
  | x :: y :: _ => Ret (mkRegion x y)
  | _ => Raise IndexError
  end.

(** [d.update(other)]: a dictionary is laid over [d]; any other argument
    is iterated for pairs, so that the empty string changes nothing, a
    string with characters raises [ValueError] at its first character, and
    what cannot be iterated, or yields no sequences, raises [TypeError]. *)
Definition update (l : ref) (other : value) : M unit :=
  let lay (src : gmap string value) : M unit :=
    modify (fun st => set_heap (<[l := src ∪ (heap st !!! l)]> (heap st)) st) in
  match other with
  | VRef o =>
      let* src := deref o in
      modify (fun st => set_heap (<[l := src ∪ (heap st !!! l)]> (heap st)) st)
  | VCss name => lay {[ "name" := VStr name ]}
  | VTag t => lay (tag_entries t)
  | VAttributes attrs => lay (attribute_entries attrs)
  | VStr EmptyString => ret tt
  | VStr _ => raise ValueError
  | VNone | VBool _ | VInt _ | VFunc _ | VRegion _ => raise TypeError
  end.

Definition expand (abbr : string) (config : option ref) : M string :=
  let config_obj := from_option VRef VNone config in
  let* h := gets heap in
  let* cfg := from_option deref (ret ∅) config in
  let is_preview :=
    truthy h config_obj && truthy h (dict_get cfg "preview" (VBool false)) in
  let* cache := gets emmet_cache in
  let* opt := new_dict {[ "cache" := VRef cache ]} in
  let* output_opt :=
    new_dict
      (<[ "output.field" := VFunc (if is_preview then Fn_field_preview else Fn_field) ]>
       (<[ "output.text" := VFunc Fn_escape_text ]>
        (<[ "output.format" :=
              VBool (negb (truthy h config_obj)
                     || negb (truthy h (dict_get cfg "inline" VNone))) ]> ∅))) in
  (if truthy h config_obj then
     update opt config_obj;;
     match cfg !! "options" with
     | Some _ => update output_opt (dict_get cfg "options" VNone)
     | None => ret tt
     end
   else ret tt);;
  setitem opt "options" (VRef output_opt);;
  let view := active_view host in
  (* [global_config] is a local name, bound only inside [if view:] *)
  let* global_config :=
    match view with
    | Some _ => let* g := get_settings "config" VNone in ret (Some g)
    | None => ret None
    end in
  match global_config with
  | Some g => expand_abbreviation emmet abbr opt g
  | None => raise (UnboundLocalError "global_config")
  end.

(** The dictionary returned by [evaluate_math]. *)
Record MathResult := mkMathResult {
  math_start : Z;
  math_end : Z;
  math_result : spec_float;
  math_snippet : string
}.

Definition evaluate_math (code : string) (pos : Z) (options : value)
  : outcome (option MathResult) :=
  obind (called (extract_math emmet code pos options)) (fun expr =>
  match expr with
  | Some (start, end') =>
      try_except
        (obind (called (evaluate emmet (Py.slice code start end'))) (fun result =>
         Ret (Some (mkMathResult start end' result
                      (Py.rstrip "." (Py.rstrip "0" (Py.format_4f result)))))))
        (fun _ => Ret None)
  | None => Ret None
  end).

(** Lines 153-154: the value stored for an attribute. *)
Definition unquote (value : option string) : option string :=
  match value with
  | Some ((String c _) as v) =>
      if Ascii.eqb c Py.dquote || Ascii.eqb c Py.squote
      then Some (Py.strip (String c EmptyString) v)
      else Some v
  | other => other
  end.

(** Body of the loop over the matched attributes. *)
Definition add_attribute (attributes : gmap string (option string)) (attr : Attribute)
  : gmap string (option string) :=
  <[ attr_name attr := unquote (attr_value attr) ]> attributes.

Definition get_tag_context (view : View) (pt : Z) (xml : value)
  : outcome (option TagContext) :=
  let content := substr view (mkRegion 0 (size view)) in
  let xml :=
    match xml with
    | VNone => VBool (is_xml syntax (from_pos syntax view pt))
    | _ => xml
    end in
  match html_match emmet content pt xml with
  | Some matched_tag =>
      obind (to_region (tag_open matched_tag)) (fun open_region =>
      obind (match tag_close matched_tag with
             | Some ((_ :: _) as close_tag) =>
                 obind (to_region close_tag) (fun r => Ret (Some r))
             | _ => Ret None
             end) (fun close_region =>
      Ret (Some (mkTagContext (tag_name matched_tag)
                   (fold_left add_attribute (tag_attributes matched_tag) ∅)
                   open_region close_region))))
  | None => Ret None
  end.

(** The [while] loop of [get_css_context], given [fuel] iterations. *)
Fixpoint css_walk (fuel : nat) (view : View) (ctx_pos : Z) : outcome (option string) :=
  match fuel with
  | O => Diverge
  | S fuel' =>
      if (0 <=? ctx_pos)
         && negb (match_selector view ctx_pos "section.property-list")
         && negb (match_selector view ctx_pos "meta.selector")
      then
        let scope_range := extract_scope view ctx_pos in
        if match_selector view ctx_pos "meta.property-name"
        then Ret (Some (substr view scope_range))
        else css_walk fuel' view (begin scope_range - 1)
      else Ret None
  end.

Definition get_css_context (fuel : nat) (view : View) (pt : Z) : outcome (option string) :=
  if match_selector view pt "meta.property-value"
  then css_walk fuel view (begin (extract_scope view pt) - 1)
  else Ret None.

Definition attach_context (fuel : nat) (view : View) (pt : Z) (config : ref) : M ref :=
  let* type := getitem config "type" in
  (if eq_str type "stylesheet" then
     let* ctx := lift (get_css_context fuel view pt) in
     setitem config "context" (from_option VCss VNone ctx)
   else
     let* syn := getitem config "syntax" in
     if is_html syntax syn then
       let* syn := getitem config "syntax" in
       let* ctx := lift (get_tag_context view pt (VBool (is_xml syntax syn))) in
       setitem config "context" (from_option VTag VNone ctx)
     else ret tt);;
  ret config.

Definition get_options (fuel : nat) (view : View) (pt : Z) (with_context : bool) : M ref :=
  let* config := new_dict (info syntax view pt "html") in
  (if with_context then attach_context fuel view pt config;; ret tt else ret tt);;
  setitem config "inline" (VBool (is_inline syntax view pt));;
  let* syn := getitem config "syntax" in
  (if is_jsx syntax syn then
     setitem config "prefix" (VStr JSX_PREFIX);;
     setitem config "jsx" (VBool true)
   else ret tt);;
  ret config.

(** What [extract_abbreviation] may be given as a location. *)
Inductive Location :=
| LInt (pt : Z)
| LSeq (rng : list Z)        (* a list or a tuple *)
| LRegion (r : Region)
| LOther.                    (* anything else *)

(** The call [extract(text, pos, opt)], recorded in the log. *)
Definition call_extract (text : string) (pos : Z) (opt : ref) : M (option AbbrData) :=
  fun st =>
    let options := heap st !!! opt in
    let result := extract emmet text pos options in
    (called result, log_extract (mkExtractCall text pos opt options result) st).

Definition extract_abbreviation (fuel : nat) (view : View) (loc : Location)
    (opt : option ref) : M (option (AbbrData * ref)) :=
  let* loc :=
    match loc with
    | LSeq rng => let* r := lift (to_region rng) in ret (LRegion r)
    | _ => ret loc
    end in
  match
    match loc with
    | LInt pt => Some (pt, line view pt)
    | LRegion r => Some (end_ r, r)
    | _ => None
    end
  with
  | None => ret None
  | Some (pt, region) =>
      let text := substr view region in
      let begin := begin region in
      let* opt := from_option ret (get_options fuel view pt false) opt in
      let* type := getitem opt "type" in
      (if eq_str type "stylesheet"
       then setitem opt "lookAhead" (VBool false)
       else ret tt);;
      let* abbr_data := call_extract text (pt - begin) opt in
      match abbr_data with
      | Some d =>
          ret (Some (mkAbbrData (abbreviation d) (start d + begin)
                       (end' d + begin) (location d + begin), opt))
      | None => ret None
      end
  end.

End Adapter.


(** ** Vocabulary of the statements *)

(** The double nearest to 2/3: the quotient of the doubles 2 and 3. *)
Definition two_thirds : spec_float :=
  SFdiv 53 1024 (S754_finite false 2 0) (S754_finite false 3 0).

(** A float that ['%.4f'] prints as a number: its sign and its value
    in ten-thousandths, rounded. *)
Definition rounded4 (x : spec_float) : option (bool * Z) :=
  match x with
  | S754_zero s => Some (s, 0)
  | S754_finite s m e => Some (s, Py.scaled4 m e)
  | _ => None
  end.

(** The host's contract for [extract_scope]: the scope of the character
    at a point does not begin after the point. *)
Definition scope_contract (view : View) : Prop :=
  forall p, 0 <= p -> begin (extract_scope view p) <= p.

(** The scanner calls made while [m] runs from [st]. *)
Definition calls_during {A} (m : M A) (st : state) : list ExtractCall :=
  drop (length (extract_log st)) (extract_log (m st).2).

(** [loc] denotes the explicit range [r]: a region, or a list or tuple
    whose first two items are the ends. *)
Definition explicit_range (loc : Location) (r : Region) : Prop :=
  loc = LRegion r \/ exists rest, loc = LSeq (a r :: b r :: rest).

(** Locations with which [extract_abbreviation] gets as far as its
    options: an offset, a region, a list or tuple of two items or more. *)
Definition scannable (loc : Location) : bool :=
  match loc with
  | LInt _ | LRegion _ | LSeq (_ :: _ :: _) => true
  | _ => false
  end.

(** The loop of [get_css_context] goes round once more from [p]: the
    condition of the [while] holds and no property name is found. *)
Definition walk_continues (view : View) (p : Z) : bool :=
  (0 <=? p)
  && negb (match_selector view p "section.property-list")
  && negb (match_selector view p "meta.selector")
  && negb (match_selector view p "meta.property-name").

(** The position the loop moves to from [p]. *)
Definition walk_next (view : View) (p : Z) : Z :=
  begin (extract_scope view p) - 1.

(** [extract_abbreviation] from the point where the options are known:
    lines 229 to 242. *)
Definition scan_with (emmet : Emmet) (text : string) (pos begin : Z) (opt : ref)
  : M (option (AbbrData * ref)) :=
  let* type := getitem opt "type" in
  (if eq_str type "stylesheet"
   then setitem opt "lookAhead" (VBool false)
   else ret tt);;
  let* abbr_data := call_extract emmet text pos opt in
  match abbr_data with
  | Some d =>
      ret (Some (mkAbbrData (abbreviation d) (start d + begin)
                   (end' d + begin) (location d + begin), opt))
  | None => ret None
  end.

(** Lines 223 to 242 for a point and a region to scan. *)
Definition resolve_and_scan (syntax : Syntax) (emmet : Emmet) (fuel : nat)
    (view : View) (opt : option ref) (pt : Z) (region : Region)
  : M (option (AbbrData * ref)) :=
  let* opt := from_option ret (get_options syntax emmet fuel view pt false) opt in
  scan_with emmet (substr view region) (pt - begin region) (begin region) opt.

(** An action that calls no scanner. *)
Definition quiet {A} (m : M A) : Prop :=
  forall st, extract_log (m st).2 = extract_log st.

(** Unquoting read as taking exactly one quote character from each end:
    the opening quote, and the last character when it is the same quote. *)
Fixpoint drop_final (q : ascii) (s : string) : string :=
  match s with
  | EmptyString => EmptyString
  | String c EmptyString => if Ascii.eqb c q then EmptyString else s
  | String c rest => String c (drop_final q rest)
  end.

Definition unquote_once (value : option string) : option string :=
  match value with
  | Some ((String c rest) as v) =>
      if Ascii.eqb c Py.dquote || Ascii.eqb c Py.squote
      then Some (drop_final c rest)
      else Some v
  | other => other
  end.

(** ** Sample collaborators

    Small concrete hosts and engines on which the statements below can be
    run. *)

Module Sample.

(** A view over a single line in which every character is its own scope
    and nothing is classified. *)
Definition plain_view (text : string) : View :=
  mkView (Z.of_nat (String.length text))
    (fun r => Py.slice text (begin r) (end_ r))
    (fun _ => mkRegion 0 (Z.of_nat (String.length text)))
    (fun _ _ => false)
    (fun p => mkRegion p (p + 1)).

Definition css_syntax : Syntax :=
  mkSyntax
    (fun _ _ _ => <[ "type" := VStr "stylesheet" ]> (<[ "syntax" := VStr "css" ]> ∅))
    (fun _ _ => VStr "css")
    (fun _ _ => false)
    (fun _ => false) (fun _ => false) (fun _ => false).

(** An engine that finds the whole text as an abbreviation when asked at
    its end, takes the whole text as a math expression, raising
    [IndexError] as the scanner of the emmet package does when the offset
    lies past the text, and knows two quotients. *)
Definition engine : Emmet :=
  mkEmmet
    (fun text pos _ =>
       if pos =? Z.of_nat (String.length text)
       then inr (Some (mkAbbrData text 0 pos pos))
       else inr None)
    (fun abbr _ _ => ret abbr)
    (fun _ _ _ => None)
    (fun code pos _ =>
       if Z.of_nat (String.length code) <? pos then inl IndexError
       else
         match code with
         | EmptyString => inr None
         | _ => inr (Some (0, Z.of_nat (String.length code)))
         end)
    (fun expr =>
       if String.eqb expr "2/3" then inr two_thirds
       else if String.eqb expr "1/0" then inl ZeroDivisionError
       else inl (EngineError "unexpected token")).

(** The same engine with a tag matcher that always finds [tag]. *)
Definition tag_engine (tag : MatchedTag) : Emmet :=
  mkEmmet (extract engine) (expand_abbreviation engine)
    (fun _ _ _ => Some tag) (extract_math engine) (evaluate engine).

(** A view whose scopes are given as a table of [(start, end, name)]. *)
Definition scope_at (scopes : list (Z * Z * string)) (p : Z) : option (Z * Z * string) :=
  List.find (fun '(s, e, _) => (s <=? p) && (p <? e)) scopes.

Definition scoped_view (text : string) (scopes : list (Z * Z * string)) : View :=
  mkView (Z.of_nat (String.length text))
    (fun r => Py.slice text (begin r) (end_ r))
    (fun _ => mkRegion 0 (Z.of_nat (String.length text)))
    (fun p selector =>
       match scope_at scopes p with
       | Some (_, _, name) => String.eqb name selector
       | None => false
       end)
    (fun p =>
       match scope_at scopes p with
       | Some (s, e, _) => mkRegion s e
       | None => mkRegion p p
       end).

(** [a { color: red; font-size: 1px }] *)
Definition stylesheet : View :=
  scoped_view "a { color: red; font-size: 1px }"
    [ (0, 2, "meta.selector"); (2, 3, "section.property-list");
      (3, 4, "meta.property-list"); (4, 9, "meta.property-name");
      (9, 10, "punctuation.separator"); (10, 14, "meta.property-value");
      (14, 15, "punctuation.terminator"); (15, 16, "meta.property-list");
      (16, 25, "meta.property-name"); (25, 26, "punctuation.separator");
      (26, 30, "meta.property-value"); (30, 31, "meta.property-list");
      (31, 32, "section.property-list") ].

(** [title] with the value ["foo"], [alt] with ['foo'], [id] with [foo],
    [class] with the empty string, [hidden] without value. *)
Definition quoted (q : ascii) (body : string) : string :=
  String q (body ++ String q EmptyString).

Definition sample_tag : MatchedTag :=
  mkMatchedTag "a"
    [ mkAttribute "title" (Some (quoted Py.dquote "foo"));
      mkAttribute "alt" (Some (quoted Py.squote "foo"));
      mkAttribute "id" (Some "foo");
      mkAttribute "class" (Some "");
      mkAttribute "hidden" None ]
    [0; 40] (Some [50; 54]).

(** An attribute value as it stands in the text, quotes included: the
    letter [a], a backslash and a quote between two quotes, so the body
    ends in an escaped quote. *)
Definition escaped_quote : string :=
  quoted Py.dquote (String "a" (String "\" (String Py.dquote EmptyString))).

(** Options of a stylesheet that ask for look-ahead. *)
Definition stylesheet_options : gmap string value :=
  <[ "type" := VStr "stylesheet" ]> (<[ "lookAhead" := VBool true ]> ∅).

(** A store with an empty cache at 1 and those options at 2. *)
Definition with_options : state :=
  mkState (<[ 2%positive := stylesheet_options ]> {[ 1%positive := ∅ ]})
    1%positive None [] [].

(** An engine whose expansion renders one field, index 2 with the
    placeholder [text], through the callback it finds under
    [output.field] in the options it is given. *)
Definition render (f : callback) (index : Z) (placeholder : string) : string :=
  match f with
  | Fn_field => field index placeholder
  | Fn_field_preview => field_preview index placeholder
  | Fn_escape_text => escape_text placeholder
  end.

Definition field_probe : Emmet :=
  mkEmmet (extract engine)
    (fun _ opt _ =>
       let* options := getitem opt "options" in
       match options with
       | VRef o =>
           let* f := getitem o "output.field" in
           match f with
           | VFunc f => ret (render f 2 "text")
           | _ => raise TypeError
           end
       | _ => raise TypeError
       end)
    (html_match engine) (extract_math engine) (evaluate engine).

(** A store with an empty cache at 1 and [{'preview': True}] at 2. *)
Definition with_preview : state :=
  mkState (<[ 2%positive := {[ "preview" := VBool true ]} ]> {[ 1%positive := ∅ ]})
    1%positive None [] [].

Definition one_view : Host := mkHost (Some (plain_view "")) (fun _ => ∅).

Definition no_view : Host := mkHost None (fun _ => ∅).

(** A store holding only an empty cache. *)
Definition init : state := mkState {[ 1%positive := ∅ ]} 1%positive None [] [].

End Sample.

(** ** Selection and section helpers

    [select_item] and [css_section] turn the ranges found by the
    [action_utils] functions of the emmet package into regions.  The
    models those functions return are known here by the fields the
    adapter reads or writes; what else they carry is kept as it is. *)

(** [[f(x) for x in xs]]: the first failure ends the comprehension. *)
Fixpoint for_each {A B} (f : A -> outcome B) (xs : list A) : outcome (list B) :=
  match xs with
  | [] => Ret []
  | x :: rest =>
      obind (f x) (fun y =>
      obind (for_each f rest) (fun ys => Ret (y :: ys)))
  end.

Section Actions.

Context {ItemInfo SectionInfo PropertyInfo : Type}.

Record SelectItemModel (R : Type) := mkSelectItemModel {
  item_info : ItemInfo;
  ranges : list R
}.

Record CSSProperty (R : Type) := mkCSSProperty {
  property_info : PropertyInfo;
  prop_name : R;
  prop_value : R;
  prop_value_tokens : list R
}.

Record CSSSection (R : Type) := mkCSSSection {
  section_info : SectionInfo;
  properties : option (list (CSSProperty R))
}.

Record ActionUtils := mkActionUtils {
  select_item_css : string -> Z -> bool -> option (SelectItemModel (list Z));
  select_item_html : string -> Z -> bool -> option (SelectItemModel (list Z));
  get_css_section : string -> Z -> bool -> option (CSSSection (list Z))
}.

Context (utils : ActionUtils).

Definition select_item (code : string) (pos : Z) (is_css is_previous : bool)
  : outcome (option (SelectItemModel Region)) :=
  let model :=
    if is_css
    then select_item_css utils code pos is_previous
    else select_item_html utils code pos is_previous in
  match model with
  | Some model =>
      obind (for_each to_region (ranges _ model)) (fun regions =>
      Ret (Some (mkSelectItemModel _ (item_info _ model) regions)))
  | None => Ret None
  end.

(** Body of the loop over the properties of a section. *)
Definition convert_property (p : CSSProperty (list Z)) : outcome (CSSProperty Region) :=
  obind (to_region (prop_name _ p)) (fun name =>
  obind (to_region (prop_value _ p)) (fun value =>
  obind (for_each to_region (prop_value_tokens _ p)) (fun value_tokens =>
  Ret (mkCSSProperty _ (property_info _ p) name value value_tokens)))).

Definition css_section (code : string) (pos : Z) (with_properties : bool)
  : outcome (option (CSSSection Region)) :=
  match get_css_section utils code pos with_properties with
  | Some section =>
      match properties _ section with
      | Some ((_ :: _) as found) =>
          obind (for_each convert_property found) (fun converted =>
          Ret (Some (mkCSSSection _ (section_info _ section) (Some converted))))
      | Some [] => Ret (Some (mkCSSSection _ (section_info _ section) (Some [])))
      | None => Ret (Some (mkCSSSection _ (section_info _ section) None))
      end
  | None => Ret None
  end.

End Actions.

Arguments ranges {ItemInfo R} _.
Arguments item_info {ItemInfo R} _.
Arguments properties {SectionInfo PropertyInfo R} _.
Arguments section_info {SectionInfo PropertyInfo R} _.
Arguments prop_name {PropertyInfo R} _.
Arguments prop_value {PropertyInfo R} _.
Arguments prop_value_tokens {PropertyInfo R} _.
Arguments property_info {PropertyInfo R} _.

(** ** Further vocabulary *)

(** Every [$] of the string stands directly after a backslash;
    [escaped] tells whether the character before is one. *)
Fixpoint dollars_escaped_from (escaped : bool) (s : string) : bool :=
  match s with
  | EmptyString => true
  | String c rest =>
      (if Ascii.eqb c "$"%char then escaped else true)
      && dollars_escaped_from (Ascii.eqb c "\"%char) rest
  end.

Definition dollars_escaped (s : string) : bool := dollars_escaped_from false s.

(** The point and the region [extract_abbreviation] works with, for the
    locations it scans. *)
Definition scan_target (view : View) (loc : Location) : option (Z * Region) :=
  match loc with
  | LInt pt => Some (pt, line view pt)
  | LRegion r => Some (end_ r, r)
  | LSeq (x :: y :: _) => Some (end_ (mkRegion x y), mkRegion x y)
  | _ => None
  end.

(** The options [get_options] builds from what [syntax.info] reports. *)
Definition built_options (syntax : Syntax) (view : View) (pt : Z)
    (reported : gmap string value) (syn : value) : gmap string value :=
  let with_inline := <[ "inline" := VBool (is_inline syntax view pt) ]> reported in
  if is_jsx syntax syn
  then <[ "jsx" := VBool true ]> (<[ "prefix" := VStr JSX_PREFIX ]> with_inline)
  else with_inline.

(** The entries of the output options [expand] starts from. *)
Definition default_output (preview inline : bool) : gmap string value :=
  <[ "output.field" := VFunc (if preview then Fn_field_preview else Fn_field) ]>
    (<[ "output.text" := VFunc Fn_escape_text ]>
       (<[ "output.format" := VBool (negb inline) ]> ∅)).

(** The region made of the first two items of a range. *)
Definition region_of (rng : list Z) (r : Region) : Prop :=
  exists rest, rng = a r :: b r :: rest.

(** A property and its converted form: the same property with a region
    for each of its ranges. *)
Definition property_converted {PropertyInfo : Type}
    (p : @CSSProperty PropertyInfo (list Z)) (q : @CSSProperty PropertyInfo Region)
  : Prop :=
  property_info q = property_info p
  /\ region_of (prop_name p) (prop_name q)
  /\ region_of (prop_value p) (prop_value q)
  /\ Forall2 region_of (prop_value_tokens p) (prop_value_tokens q).

(** A property one of whose ranges has fewer than two items. *)
Definition short_ranged {PropertyInfo : Type}
    (p : @CSSProperty PropertyInfo (list Z)) : Prop :=
  (length (prop_name p) < 2)%nat
  \/ (length (prop_value p) < 2)%nat
  \/ Exists (fun rng => (length rng < 2)%nat) (prop_value_tokens p).

(** The configuration [expand] is given, as the store has it: [cfg] is
    the content of the dictionary (empty without one), [given] the
    content of the dictionary under its [options] key (empty without
    one).  An [options] entry that is no dictionary is left out. *)
Definition config_in (st : state) (config : option ref)
    (cfg given : gmap string value) : Prop :=
  match config with
  | None => cfg = ∅ /\ given = ∅
  | Some l =>
      heap st !! l = Some cfg
      /\ match cfg !! "options" with
         | None => given = ∅
         | Some (VRef o) => heap st !! o = Some given
         | Some _ => False
         end
  end.

(** More samples. *)
Module Fixture.

(** Options of a markup document that ask for look-ahead. *)
Definition markup_options : gmap string value :=
  <[ "type" := VStr "markup" ]> (<[ "lookAhead" := VBool true ]> ∅).

Definition with_markup : state :=
  mkState (<[ 2%positive := markup_options ]> {[ 1%positive := ∅ ]})
    1%positive None [] [].

(** A store whose cache, at 1, remembers one abbreviation. *)
Definition warm_cache : state :=
  mkState {[ 1%positive := {[ "ul>li" := VStr "parsed" ]} ]} 1%positive None [] [].

(** An engine whose scanner rejects every text. *)
Definition failing_engine : Emmet :=
  mkEmmet (fun _ _ _ => inl (EngineError "unexpected character"))
    (expand_abbreviation Sample.engine) (html_match Sample.engine)
    (extract_math Sample.engine) (evaluate Sample.engine).

(** An engine that evaluates every expression to the double 100. *)
Definition hundred_engine : Emmet :=
  mkEmmet (extract Sample.engine) (expand_abbreviation Sample.engine)
    (html_match Sample.engine) (extract_math Sample.engine)
    (fun _ => inr (S754_finite false 100 0)).

(** An engine that evaluates [-0] to minus zero and everything else to
    zero. *)
Definition zero_engine : Emmet :=
  mkEmmet (extract Sample.engine) (expand_abbreviation Sample.engine)
    (html_match Sample.engine) (extract_math Sample.engine)
    (fun expr => inr (S754_zero (String.eqb expr "-0"))).

(** A store with an empty cache at 1 and, at 2, a configuration whose
    [options] entry is the given value. *)
Definition with_output_options (given : value) : state :=
  mkState (<[ 2%positive := {[ "options" := given ]} ]> {[ 1%positive := ∅ ]})
    1%positive None [] [].

(** Syntax of a JSX document. *)
Definition jsx_syntax : Syntax :=
  mkSyntax
    (fun _ _ _ => <[ "type" := VStr "markup" ]> (<[ "syntax" := VStr "jsx" ]> ∅))
    (fun _ _ => VStr "jsx")
    (fun _ _ => true)
    (fun _ => true) (fun _ => true) (fun _ => false).

(** Action helpers that find one item with two ranges, and one section
    with one property. *)
Definition utils : @ActionUtils unit unit unit :=
  mkActionUtils
    (fun _ _ _ => Some (mkSelectItemModel _ tt [[4; 9]; [11; 14]]))
    (fun _ _ _ => Some (mkSelectItemModel _ tt [[1; 2]; [3]]))
    (fun _ _ with_properties =>
       Some (mkCSSSection _
               tt
               (if with_properties
                then Some [mkCSSProperty _ tt [4; 9] [11; 14] [[11; 14]]]
                else None))).

End Fixture.

(** ** Field strategies *)

(** C7: the default field strategy renders [${index:placeholder}] for a
    non-empty placeholder and [${index}] for an empty one; the preview
    strategy renders the placeholder alone.  For index 2 and placeholder
    [text] these are [${2:text}] and [text]. *)
Theorem field_strategies (index : Z) (c : ascii) (rest placeholder : string) :
  field index (String c rest)
    = "${" ++ Py.format_d index ++ ":" ++ String c rest ++ "}"
  /\ field index "" = "${" ++ Py.format_d index ++ "}"
  /\ field_preview index placeholder = placeholder
  /\ field 2 "text" = "${2:text}"
  /\ field_preview 2 "text" = "text".
Proof. repeat split. Qed.

(** [expand] hands the engine the default strategy unless the
    configuration asks for a preview. *)
Example expand_field_strategy :
  (expand Sample.one_view Sample.field_probe "p" None Sample.init).1
    = Ret "${2:text}"
  /\ (expand Sample.one_view Sample.field_probe "p" (Some 2%positive)
        Sample.with_preview).1
     = Ret "text".
Proof. split; vm_compute; reflexivity. Qed.

(** ** The shared cache *)

Lemma new_dict_fresh (d : gmap string value) (st : state) :
  heap st !! fresh (dom (heap st)) = None.
Proof. apply not_elem_of_dom, is_fresh. Qed.

(** C8: whatever the store and the cache held before, once
    [handle_settings_change] has run the module's cache is an empty
    dictionary. *)
Theorem cache_empty_after_settings_change (st : state) :
  let st' := (handle_settings_change st).2 in
  (handle_settings_change st).1 = Ret tt
  /\ heap st' !! emmet_cache st' = Some ∅
  /\ base.size (heap st' !!! emmet_cache st') = 0%nat.
Proof.
  cbn. split; [reflexivity|].
  rewrite lookup_total_insert_eq, lookup_insert_eq. split; [reflexivity|].
  apply map_size_empty.
Qed.

(** Every dictionary that existed before the notification, the former
    cache among them, is left as it was: the global is rebound. *)
Lemma settings_change_keeps_objects (st : state) (l : ref) (d : gmap string value) :
  heap st !! l = Some d ->
  heap (handle_settings_change st).2 !! l = Some d.
Proof.
  intros Hl. cbn. rewrite lookup_insert_ne; [exact Hl|].
  intros <-. rewrite new_dict_fresh in Hl; [discriminate | exact d].
Qed.

(** ** Expansion without an active view *)

(** C4: with no active view the name [global_config] is never bound, and
    reading it for the call of the engine raises; the only other ways out
    are the [TypeError] or [ValueError] of [update] on an [options] entry
    that is no dictionary.  The engine is not reached. *)
Theorem expand_without_view_raises (emmet : Emmet)
    (stored : string -> gmap string value) (abbr : string)
    (config : option ref) (st : state) :
  let out := (expand (mkHost None stored) emmet abbr config st).1 in
  (out = Raise (UnboundLocalError "global_config")
   \/ out = Raise TypeError \/ out = Raise ValueError)
  /\ (expand (mkHost None stored) emmet abbr None st).1
     = Raise (UnboundLocalError "global_config").
Proof.
  split; [|reflexivity].
  destruct config as [l|]; [|by left].
  unfold expand, update, setitem, getitem, deref, new_dict, bind, gets, modify,
    ret, raise; cbn.
  repeat (case_match; cbn in *; simplify_eq; auto).
Qed.

(** [options] entries that are no dictionary in the store: the empty
    string and a dictionary kept as a value are accepted by [update], a
    string with characters raises [ValueError], [None] raises
    [TypeError]. *)
Example options_that_are_no_dictionary :
  (expand Sample.no_view Sample.engine "p" (Some 2%positive)
     (Fixture.with_output_options (VStr ""))).1
  = Raise (UnboundLocalError "global_config")
  /\ (expand Sample.no_view Sample.engine "p" (Some 2%positive)
        (Fixture.with_output_options (VCss "color"))).1
     = Raise (UnboundLocalError "global_config")
  /\ (expand Sample.no_view Sample.engine "p" (Some 2%positive)
        (Fixture.with_output_options (VStr "ab"))).1
     = Raise ValueError
  /\ (expand Sample.no_view Sample.engine "p" (Some 2%positive)
        (Fixture.with_output_options VNone)).1
     = Raise TypeError
  /\ (expand Sample.one_view Sample.engine "p" (Some 2%positive)
        (Fixture.with_output_options (VStr ""))).1
     = Ret "p".
Proof. repeat split. Qed.

(** With a view but no stored [config] entry the engine is called with
    [None] as the global configuration: the missing entry is not an
    error of the adapter. *)
Lemma expand_with_view_defaults (emmet : Emmet) (view : View)
    (stored : string -> gmap string value) (abbr : string) (st : state) :
  settings st = None ->
  stored "Emmet.sublime-settings" !! "config" = None ->
  exists opt st',
    expand (mkHost (Some view) stored) emmet abbr None st
    = expand_abbreviation emmet abbr opt VNone st'
    /\ settings st' = Some (stored "Emmet.sublime-settings")
    /\ on_change st' = ("config", On_handle_settings_change) :: on_change st.
Proof.
  intros Hs Hc. eexists _, _. split.
  - unfold expand, get_settings, update, setitem, getitem, deref, new_dict, bind,
      gets, modify, ret, raise; cbn.
    rewrite Hs; cbn. unfold dict_get. rewrite Hc; cbn. reflexivity.
  - split; reflexivity.
Qed.

(** ** The math evaluator *)

(** C5, as the code has it: an exception of the extraction, which is
    called before the [try], reaches the caller.  Whenever the extraction
    returns, [evaluate_math] returns too: when the evaluation of the
    extracted expression raises, whatever the exception, the result is
    [None], as it is when no expression is found. *)
Theorem evaluate_math_suppresses_evaluation (emmet : Emmet) (code : string)
    (pos : Z) (options : value) :
  match extract_math emmet code pos options with
  | inl e => evaluate_math emmet code pos options = Raise e
  | inr found =>
      (exists r, evaluate_math emmet code pos options = Ret r)
      /\ match found with
         | Some (s, e) =>
             match evaluate emmet (Py.slice code s e) with
             | inl _ => evaluate_math emmet code pos options = Ret None
             | inr x =>
                 exists snippet,
                   evaluate_math emmet code pos options
                   = Ret (Some (mkMathResult s e x snippet))
             end
         | None => evaluate_math emmet code pos options = Ret None
         end
  end.
Proof.
  unfold evaluate_math.
  destruct (extract_math emmet code pos options) as [err|[[s e]|]]; cbn;
    [reflexivity| |eauto].
  destruct (evaluate emmet (Py.slice code s e)) as [err|x]; cbn; eauto.
Qed.

(** C5, as the specification words it, fails for an offset past the
    text: the extraction raises [IndexError] and nothing catches it. *)
Lemma evaluate_math_offset_past_text :
  extract_math Sample.engine "2/3" 10 VNone = inl IndexError
  /\ evaluate_math Sample.engine "2/3" 10 VNone = Raise IndexError
  /\ evaluate_math Sample.engine "2/3" 10 VNone <> Ret None.
Proof. split; [reflexivity|]. split; [reflexivity | discriminate]. Qed.

(** Division by zero and a parse failure on the sample engine. *)
Example evaluate_math_division_by_zero :
  evaluate_math Sample.engine "1/0" 3 VNone = Ret None
  /\ evaluate_math Sample.engine "2+*" 3 VNone = Ret None
  /\ evaluate_math Sample.engine "" 0 VNone = Ret None.
Proof. repeat split. Qed.

(** *** Trimming of the formatted result *)

Module PyFacts.
Import Py.

Lemma count_char_app (c : ascii) (s t : string) :
  count_char c (s ++ t) = (count_char c s + count_char c t)%nat.
Proof. induction s as [|d s IH]; simpl; [reflexivity|]. rewrite IH. lia. Qed.

Lemma count_char_zero (c : ascii) (s : string) :
  count_char c s = O -> char_in c s = false.
Proof.
  induction s as [|d s IH]; cbn; [reflexivity|].
  destruct (Ascii.eqb c d); [discriminate|]. exact IH.
Qed.

(** What [rstrip] leaves does not end in a stripped character. *)
Lemma rstrip_last (chars s : string) (c : ascii) :
  last_char (rstrip chars s) = Some c -> char_in c chars = false.
Proof.
  induction s as [|d s IH]; cbn; [discriminate|].
  destruct (rstrip chars s) as [|k kept] eqn:E.
  - destruct (char_in d chars) eqn:Ed; cbn; [discriminate|].
    intros [= <-]. exact Ed.
  - intros H. apply IH. exact H.
Qed.

(** [rstrip] never adds an occurrence of a character. *)
Lemma rstrip_count_le (chars s : string) (c : ascii) :
  (count_char c (rstrip chars s) <= count_char c s)%nat.
Proof.
  induction s as [|d s IH]; cbn; [lia|].
  destruct (rstrip chars s) as [|k kept] eqn:E.
  - destruct (char_in d chars); cbn; lia.
  - cbn in *. lia.
Qed.

(** Stripping one character either changes nothing or removes at least
    one occurrence of it. *)
Lemma rstrip_single (c : ascii) (s : string) :
  rstrip (String c EmptyString) s = s
  \/ (count_char c (rstrip (String c EmptyString) s) < count_char c s)%nat.
Proof.
  induction s as [|d s IH]; cbn; [by left|].
  destruct (rstrip (String c EmptyString) s) as [|k kept] eqn:E.
  - rewrite (Ascii.eqb_sym d c).
    destruct (Ascii.eqb c d) eqn:Ecd; cbn.
    + right. lia.
    + rewrite Ecd. destruct IH as [<-|IH]; [by left|]. right. cbn in *. lia.
  - destruct IH as [->|IH]; [by left|]. right. cbn in *. lia.
Qed.

Lemma digit_not_dot (d : Z) : 0 <= d <= 9 -> Ascii.eqb "." (digit d) = false.
Proof.
  intros H.
  assert (d = 0 \/ d = 1 \/ d = 2 \/ d = 3 \/ d = 4 \/ d = 5 \/ d = 6
          \/ d = 7 \/ d = 8 \/ d = 9) as Hd by lia.
  repeat (destruct Hd as [->|Hd]; [reflexivity|]). by subst.
Qed.

Lemma frac4_no_dot (n : Z) : count_char "." (frac4 n) = O.
Proof.
  unfold frac4. cbn [count_char].
  assert (0 <= n mod 10000 < 10000) as Hf by (apply Z.mod_pos_bound; lia).
  assert (forall z, 0 <= z mod 10 <= 9) as Hm
    by (intros z; pose proof (Z.mod_pos_bound z 10); lia).
  assert (0 <= n mod 10000 / 1000 <= 9) as Hd.
  { split; [apply Z.div_pos; lia|].
    assert (n mod 10000 / 1000 < 10); [|lia].
    apply Z.div_lt_upper_bound; lia. }
  rewrite !digit_not_dot by auto. reflexivity.
Qed.

Lemma uint_no_dot (u : Decimal.uint) :
  count_char "." (NilEmpty.string_of_uint u) = O.
Proof. induction u; cbn; auto. Qed.

Lemma fixed4_one_dot (n : Z) : count_char "." (fixed4 n) = 1%nat.
Proof.
  unfold fixed4. rewrite !count_char_app, frac4_no_dot.
  unfold NilZero.string_of_uint.
  destruct (N.to_uint (Z.to_N (n / 10000))) eqn:E; rewrite <- ?E; cbn [count_char];
    try (rewrite E; rewrite uint_no_dot); reflexivity.
Qed.

Lemma format_4f_dots (x : spec_float) : (count_char "." (format_4f x) <= 1)%nat.
Proof.
  destruct x as [s|s| |s m e]; cbn [format_4f].
  - rewrite count_char_app, fixed4_one_dot. destruct s; cbn; lia.
  - destruct s; vm_compute; lia.
  - vm_compute; lia.
  - rewrite count_char_app, fixed4_one_dot. destruct s; cbn; lia.
Qed.

(** The trimmed form of any formatted float. *)
Lemma trimmed_shape (x : spec_float) :
  let snippet := rstrip "." (rstrip "0" (format_4f x)) in
  last_char snippet <> Some "."%char
  /\ (char_in "." snippet = true -> last_char snippet <> Some "0"%char).
Proof.
  cbn zeta. split.
  - intros H. apply rstrip_last in H. discriminate.
  - intros Hdot Hzero.
    destruct (rstrip_single "." (rstrip "0" (format_4f x))) as [E|E].
    + rewrite E in Hzero. apply rstrip_last in Hzero. discriminate.
    + pose proof (rstrip_count_le "0" (format_4f x) ".") as H1.
      pose proof (format_4f_dots x) as H2.
      rewrite count_char_zero in Hdot; [discriminate | lia].
Qed.

End PyFacts.

(** C6: when [evaluate_math] succeeds, its snippet is the ['%.4f'] form
    of the result with trailing zeros and then a trailing point removed:
    it never ends in a point, never ends in a zero while it still has a
    point, and for the double nearest to 2/3 it is [0.6667]. *)
Theorem snippet_trimmed (emmet : Emmet) (code : string) (pos : Z)
    (options : value) (r : MathResult) :
  evaluate_math emmet code pos options = Ret (Some r) ->
  math_snippet r = Py.rstrip "." (Py.rstrip "0" (Py.format_4f (math_result r)))
  /\ Py.last_char (math_snippet r) <> Some "."%char
  /\ (Py.char_in "." (math_snippet r) = true ->
      Py.last_char (math_snippet r) <> Some "0"%char)
  /\ (math_result r = two_thirds -> math_snippet r = "0.6667").
Proof.
  unfold evaluate_math. intros H.
  destruct (extract_math emmet code pos options) as [err|[[s e]|]]; cbn in H;
    try discriminate.
  destruct (evaluate emmet (Py.slice code s e)) as [err|x]; cbn in H; [discriminate|].
  injection H as <-. cbn [math_snippet math_result].
  split; [reflexivity|].
  destruct (PyFacts.trimmed_shape x) as [H1 H2].
  split; [exact H1|]. split; [exact H2|].
  intros ->. reflexivity.
Qed.

Lemma snippet_trimmed_witness :
  exists r,
    evaluate_math Sample.engine "2/3" 3 VNone = Ret (Some r)
    /\ math_snippet r = "0.6667".
Proof.
  eexists. split; [reflexivity|].
  destruct (snippet_trimmed Sample.engine "2/3" 3 VNone _ eq_refl) as (_ & _ & _ & H).
  apply H. reflexivity.
Defined.

(** ** Attribute values of the tag context *)

Module StripFacts.
Import Py.

Lemma rstrip_app (chars s t : string) :
  rstrip chars (s ++ t)
  = match rstrip chars t with
    | EmptyString => rstrip chars s
    | kept => s ++ kept
    end.
Proof.
  induction s as [|c s IH].
  - change (EmptyString ++ t) with t. destruct (rstrip chars t); reflexivity.
  - change (String c s ++ t) with (String c (s ++ t)).
    cbn [rstrip]. rewrite IH. destruct (rstrip chars t) as [|k kept]; [reflexivity|].
    destruct s; reflexivity.
Qed.

(** A string that does not end in a stripped character is kept whole. *)
Lemma rstrip_keeps (chars s : string) :
  (forall c, last_char s = Some c -> char_in c chars = false) ->
  rstrip chars s = s.
Proof.
  induction s as [|c s IH]; simpl; [reflexivity|].
  intros H. destruct s as [|d s].
  - simpl. rewrite (H c eq_refl). reflexivity.
  - rewrite IH by exact H. reflexivity.
Qed.

Lemma char_in_single (c q : ascii) :
  char_in c (String q EmptyString) = Ascii.eqb c q.
Proof. simpl. destruct (Ascii.eqb c q); reflexivity. Qed.

(** One pair of quotes around a body that neither begins nor ends with
    the quote: exactly the pair goes. *)
Lemma strip_quoted (q : ascii) (body : string) :
  first_char body <> Some q ->
  last_char body <> Some q ->
  strip (String q EmptyString) (String q (body ++ String q EmptyString)) = body.
Proof.
  intros Hfirst Hlast. unfold strip.
  change (String q (body ++ String q EmptyString))
    with (String q EmptyString ++ (body ++ String q EmptyString)).
  assert (rstrip (String q EmptyString) (body ++ String q EmptyString) = body) as E.
  { rewrite rstrip_app. simpl. rewrite Ascii.eqb_refl.
    apply rstrip_keeps. intros c Hc. rewrite char_in_single.
    apply Ascii.eqb_neq. congruence. }
  rewrite rstrip_app, E.
  destruct body as [|c body]; simpl.
  - rewrite Ascii.eqb_refl. reflexivity.
  - rewrite Ascii.eqb_refl.
    destruct (Ascii.eqb c q) eqn:Ec; [|reflexivity].
    apply Ascii.eqb_eq in Ec. subst c. simpl in Hfirst. congruence.
Qed.

End StripFacts.

(** The attributes of the context are the matched ones folded, in order,
    into a dictionary; an attribute that no later one shadows is found
    under its name with its value unquoted. *)
Lemma fold_attributes_lookup (later : list Attribute) (attr : Attribute)
    (attributes : gmap string (option string)) :
  Forall (fun other => attr_name other <> attr_name attr) later ->
  fold_left add_attribute later (add_attribute attributes attr) !! attr_name attr
  = Some (unquote (attr_value attr)).
Proof.
  revert attributes. induction later as [|other later IH]; intros attributes Hne; simpl.
  - unfold add_attribute. apply lookup_insert_eq.
  - inversion Hne as [|? ? Hother Hlater]; subst.
    unfold add_attribute at 2 3.
    rewrite insert_insert_ne by exact Hother.
    apply (IH (<[attr_name other := unquote (attr_value other)]> attributes) Hlater).
Qed.

Lemma get_tag_context_attributes (syntax : Syntax) (emmet : Emmet) (view : View)
    (pt : Z) (xml : value) (ctx : TagContext) :
  get_tag_context syntax emmet view pt xml = Ret (Some ctx) ->
  exists tag,
    ctx_attributes ctx = fold_left add_attribute (tag_attributes tag) ∅
    /\ forall earlier attr later,
         tag_attributes tag = (earlier ++ attr :: later)%list ->
         Forall (fun other => attr_name other <> attr_name attr) later ->
         ctx_attributes ctx !! attr_name attr = Some (unquote (attr_value attr)).
Proof.
  unfold get_tag_context. intros H.
  destruct (html_match emmet _ pt _) as [tag|]; [|discriminate].
  exists tag.
  destruct (to_region (tag_open tag)) as [o|e|]; simpl in H; try discriminate.
  assert (ctx_attributes ctx = fold_left add_attribute (tag_attributes tag) ∅) as E.
  { destruct (tag_close tag) as [[|c [|d close]]|]; simpl in H;
      try discriminate; inversion H; reflexivity. }
  split; [exact E|].
  intros earlier attr later Hsplit Hlater.
  rewrite E, Hsplit, fold_left_app. simpl.
  apply fold_attributes_lookup. exact Hlater.
Qed.

(** On values as they are usually written.  The value stored for an
    attribute is its value with the opening character stripped from both
    ends when that character is a double or a single quote.  When a body
    that neither begins nor ends with the quote is enclosed in one pair
    of it, exactly the pair is removed: ["foo"] and ['foo'] give [foo].
    A value that does not begin with a quote is unchanged, an empty value
    stays empty. *)
Theorem unquote_strips_quotes (attributes : gmap string (option string))
    (attr : Attribute) (q : ascii) (rest body plain : string) :
  q = Py.dquote \/ q = Py.squote ->
  Py.first_char body <> Some q ->
  Py.last_char body <> Some q ->
  Py.first_char plain <> Some Py.dquote ->
  Py.first_char plain <> Some Py.squote ->
  add_attribute attributes attr !! attr_name attr = Some (unquote (attr_value attr))
  /\ unquote (Some (String q rest))
     = Some (Py.strip (String q EmptyString) (String q rest))
  /\ unquote (Some (Sample.quoted q body)) = Some body
  /\ unquote (Some (Sample.quoted Py.dquote "foo")) = Some "foo"
  /\ unquote (Some (Sample.quoted Py.squote "foo")) = Some "foo"
  /\ unquote (Some plain) = Some plain
  /\ unquote (Some "") = Some ""
  /\ unquote None = None.
Proof.
  intros Hq Hfirst Hlast Hd Hs.
  assert (forall r, unquote (Some (String q r))
                    = Some (Py.strip (String q EmptyString) (String q r))) as E.
  { intros r. destruct Hq as [-> | ->]; reflexivity. }
  split; [apply lookup_insert_eq|].
  split; [apply E|].
  split.
  { unfold Sample.quoted. rewrite E.
    rewrite StripFacts.strip_quoted by assumption. reflexivity. }
  split; [reflexivity|]. split; [reflexivity|].
  split; [|split; reflexivity].
  destruct plain as [|c plain]; [reflexivity|].
  simpl in *.
  destruct (Ascii.eqb c Py.dquote) eqn:E1.
  { apply Ascii.eqb_eq in E1. congruence. }
  destruct (Ascii.eqb c Py.squote) eqn:E2.
  { apply Ascii.eqb_eq in E2. congruence. }
  reflexivity.
Qed.

Lemma unquote_strips_quotes_witness :
  unquote (Some (Sample.quoted Py.squote "say hi")) = Some "say hi"
  /\ unquote (Some "say hi") = Some "say hi".
Proof.
  assert (Py.squote = Py.dquote \/ Py.squote = Py.squote) as Hq by (right; reflexivity).
  assert (Py.first_char "say hi" <> Some Py.squote) as H1 by discriminate.
  assert (Py.last_char "say hi" <> Some Py.squote) as H2 by discriminate.
  assert (Py.first_char "say hi" <> Some Py.dquote) as H3 by discriminate.
  destruct (unquote_strips_quotes ∅ (mkAttribute "title" None) Py.squote
              "x" "say hi" "say hi" Hq H1 H2 H3 H1)
    as (_ & _ & Hbody & _ & _ & Hplain & _).
  split; [exact Hbody | exact Hplain].
Defined.

(** C3: unquoting takes one quote from each end.  On a value whose body
    ends in an escaped quote the code does otherwise: [strip] takes the
    escaped quote along with the closing one, and the context holds the
    body without its last character. *)
Theorem unquote_drops_escaped_quote :
  Sample.escaped_quote
  = String Py.dquote
      (String "a" (String "\" (String Py.dquote (String Py.dquote EmptyString))))
  /\ unquote (Some Sample.escaped_quote) = Some "a\"
  /\ unquote_once (Some Sample.escaped_quote)
     = Some (String "a" (String "\" (String Py.dquote EmptyString)))
  /\ unquote (Some Sample.escaped_quote) <> unquote_once (Some Sample.escaped_quote)
  /\ exists ctx,
       get_tag_context Sample.css_syntax
         (Sample.tag_engine
            (mkMatchedTag "a" [mkAttribute "title" (Some Sample.escaped_quote)]
               [0; 16] None))
         (Sample.plain_view "") 1 VNone = Ret (Some ctx)
       /\ ctx_attributes ctx !! "title" = Some (Some "a\").
Proof.
  split; [reflexivity|]. split; [reflexivity|]. split; [reflexivity|].
  split; [discriminate|].
  eexists. split; reflexivity.
Qed.

(** The tag context of the sample tag. *)
Example sample_tag_context :
  exists ctx,
    get_tag_context Sample.css_syntax (Sample.tag_engine Sample.sample_tag)
      (Sample.plain_view "") 1 VNone = Ret (Some ctx)
    /\ ctx_name ctx = "a"
    /\ ctx_attributes ctx !! "title" = Some (Some "foo")
    /\ ctx_attributes ctx !! "alt" = Some (Some "foo")
    /\ ctx_attributes ctx !! "id" = Some (Some "foo")
    /\ ctx_attributes ctx !! "class" = Some (Some "")
    /\ ctx_attributes ctx !! "hidden" = Some None
    /\ ctx_open ctx = mkRegion 0 40
    /\ ctx_close ctx = Some (mkRegion 50 54).
Proof. eexists. repeat split. Qed.

(** ** The walk back to the property name *)

Lemma css_walk_step (view : View) (n : nat) (p : Z) :
  walk_continues view p = true ->
  css_walk (S n) view p = css_walk n view (walk_next view p).
Proof.
  unfold walk_continues, walk_next. intros H.
  apply andb_prop in H as [H Hname]. cbn [css_walk]. rewrite H.
  apply negb_true_iff in Hname. rewrite Hname. reflexivity.
Qed.

Lemma css_walk_stop (view : View) (n : nat) (p : Z) :
  walk_continues view p = false ->
  css_walk (S n) view p
  = Ret (if match_selector view p "meta.property-name"
            && (0 <=? p)
            && negb (match_selector view p "section.property-list")
            && negb (match_selector view p "meta.selector")
         then Some (substr view (extract_scope view p))
         else None).
Proof.
  unfold walk_continues. cbn [css_walk]. intros H.
  destruct (0 <=? p), (match_selector view p "section.property-list"),
    (match_selector view p "meta.selector"),
    (match_selector view p "meta.property-name"); cbn in *;
    try reflexivity; discriminate.
Qed.

(** Enough iterations for a start at [p]: one more than [p + 1]. *)
Lemma css_walk_enough (view : View) :
  scope_contract view ->
  forall (n : nat) (p : Z),
    p < Z.of_nat n ->
    exists r, forall m, (S n <= m)%nat -> css_walk m view p = Ret r.
Proof.
  intros Hscope. induction n as [|n IH]; intros p Hp.
  - exists None. intros [|m] Hm; [lia|].
    rewrite css_walk_stop.
    + replace (0 <=? p) with false by lia. rewrite andb_false_r. reflexivity.
    + unfold walk_continues. replace (0 <=? p) with false by lia. reflexivity.
  - destruct (walk_continues view p) eqn:Hc.
    + assert (0 <= p) as Hpos.
      { unfold walk_continues in Hc. destruct (0 <=? p) eqn:E; [lia|discriminate]. }
      destruct (IH (walk_next view p)) as [r Hr].
      { unfold walk_next. specialize (Hscope p Hpos). lia. }
      exists r. intros [|m] Hm; [lia|].
      rewrite css_walk_step by exact Hc. apply Hr. lia.
    + eexists. intros [|m] Hm; [lia|].
      apply css_walk_stop. exact Hc.
Qed.

(** C9: on a host whose scopes contain the point they are asked for, the
    walk of [get_css_context] ends.  An iteration that goes round moves
    to a position at least one character to the left; otherwise the loop
    returns, because the start of the document is passed, a boundary
    scope is hit or the property name is found.  So some number of
    iterations gives the result, and every larger number the same. *)
Theorem css_walk_terminates (view : View) (pt : Z) :
  scope_contract view ->
  (forall n p, walk_continues view p = true ->
     css_walk (S n) view p = css_walk n view (walk_next view p)
     /\ walk_next view p <= p - 1)
  /\ (forall n p, walk_continues view p = false ->
        exists r, css_walk (S n) view p = Ret r)
  /\ exists fuel r, forall n, (fuel <= n)%nat -> get_css_context n view pt = Ret r.
Proof.
  intros Hscope. split; [|split].
  - intros n p Hc. split; [apply css_walk_step; exact Hc|].
    unfold walk_next. assert (0 <= p); [|specialize (Hscope p); lia].
    unfold walk_continues in Hc. destruct (0 <=? p) eqn:E; [lia|discriminate].
  - intros n p Hc. eexists. apply css_walk_stop. exact Hc.
  - unfold get_css_context.
    destruct (match_selector view pt "meta.property-value").
    + set (p := begin (extract_scope view pt) - 1).
      destruct (css_walk_enough view Hscope (Z.to_nat (p + 1)) p) as [r Hr]; [lia|].
      exists (S (Z.to_nat (p + 1))), r. exact Hr.
    + exists O, None. reflexivity.
Qed.

(** Views given by a table of scopes meet the contract. *)
Lemma scoped_view_contract (text : string) (scopes : list (Z * Z * string)) :
  scope_contract (Sample.scoped_view text scopes).
Proof.
  intros p _. cbn. unfold Sample.scope_at.
  destruct (find _ scopes) as [[[s e] name]|] eqn:E; unfold begin; cbn; [|lia].
  apply find_some in E as [_ E]. lia.
Qed.

Lemma css_walk_terminates_witness :
  exists fuel r, forall n, (fuel <= n)%nat -> get_css_context n Sample.stylesheet 11 = Ret r.
Proof.
  apply (css_walk_terminates Sample.stylesheet 11).
  apply scoped_view_contract.
Defined.

(** The walk on [a { color: red; font-size: 1px }]: inside the first and
    the second value, and between the declarations. *)
Example css_context_of_sample :
  get_css_context 2 Sample.stylesheet 11 = Ret (Some "color")
  /\ get_css_context 2 Sample.stylesheet 28 = Ret (Some "font-size")
  /\ get_css_context 0 Sample.stylesheet 15 = Ret None
  /\ get_css_context 1 Sample.stylesheet 11 = Diverge.
Proof. repeat split. Qed.

(** ** Extraction of the abbreviation *)

Section Extraction.

Context (syntax : Syntax) (emmet : Emmet) (fuel : nat) (view : View).

(** *** Actions that call no scanner *)

Lemma quiet_ret {A} (x : A) : quiet (ret x).
Proof. intros st. reflexivity. Qed.

Lemma quiet_raise {A} (e : exn) : quiet (@raise A e).
Proof. intros st. reflexivity. Qed.

Lemma quiet_lift {A} (o : outcome A) : quiet (lift o).
Proof. intros st. reflexivity. Qed.

Lemma quiet_bind {A B} (m : M A) (k : A -> M B) :
  quiet m -> (forall x, quiet (k x)) -> quiet (bind m k).
Proof.
  intros Hm Hk st. unfold bind. specialize (Hm st).
  destruct (m st) as [[x|e|] st']; cbn in *; [|exact Hm|exact Hm].
  rewrite (Hk x st'). exact Hm.
Qed.

Lemma quiet_new_dict (d : gmap string value) : quiet (new_dict d).
Proof. intros st. reflexivity. Qed.

Lemma quiet_setitem (l : ref) (key : string) (v : value) : quiet (setitem l key v).
Proof. intros st. reflexivity. Qed.

Lemma quiet_getitem (l : ref) (key : string) : quiet (getitem l key).
Proof.
  intros st. unfold getitem, bind, deref, gets. cbn.
  destruct ((heap st !!! l) !! key); reflexivity.
Qed.

Create HintDb quiet.

#[local] Hint Resolve quiet_ret quiet_raise quiet_lift quiet_new_dict quiet_setitem
  quiet_getitem : quiet.

Ltac quiet_steps :=
  repeat first
    [ solve [auto with quiet]
    | match goal with |- quiet (if ?c then _ else _) => destruct c end
    | apply quiet_bind; [|intros ?] ].

Lemma quiet_attach_context (pt : Z) (config : ref) :
  quiet (attach_context syntax emmet fuel view pt config).
Proof. unfold attach_context. quiet_steps. Qed.

Lemma quiet_get_options (pt : Z) (with_context : bool) :
  quiet (get_options syntax emmet fuel view pt with_context).
Proof.
  unfold get_options. pose proof quiet_attach_context. quiet_steps.
Qed.

(** *** The run from known options *)

(** What [scan_with] does on a store in which [opt] holds [d]. *)
Lemma scan_with_run (text : string) (pos begin : Z) (opt : ref) (st : state) :
  let d := heap st !!! opt in
  scan_with emmet text pos begin opt st
  = match d !! "type" with
    | None => (Raise (KeyError "type"), st)
    | Some type =>
        let sheet := eq_str type "stylesheet" in
        let d' := if sheet then <[ "lookAhead" := VBool false ]> d else d in
        let st' := if sheet then set_heap (<[ opt := d' ]> (heap st)) st else st in
        let result := extract emmet text pos d' in
        (match result with
         | inl e => Raise e
         | inr (Some m) =>
             Ret (Some (mkAbbrData (abbreviation m) (start m + begin)
                          (end' m + begin) (location m + begin), opt))
         | inr None => Ret None
         end,
         log_extract (mkExtractCall text pos opt d' result) st')
    end.
Proof.
  cbn zeta. unfold scan_with, getitem, setitem, call_extract, bind, deref, gets,
    modify, ret, raise. cbn.
  destruct ((heap st !!! opt) !! "type") as [type|]; [|reflexivity].
  destruct (eq_str type "stylesheet"); cbn.
  - rewrite lookup_total_insert_eq.
    destruct (extract emmet text pos _) as [e|[m|]]; reflexivity.
  - destruct (extract emmet text pos _) as [e|[m|]]; reflexivity.
Qed.

Lemma eq_str_true (v : value) (s : string) : eq_str v s = true -> v = VStr s.
Proof.
  destruct v; cbn; try discriminate. intros H. apply String.eqb_eq in H. by subst.
Qed.

Lemma calls_during_log {A} (m : M A) (st : state) (c : ExtractCall) :
  extract_log (m st).2 = (extract_log st ++ [c])%list ->
  calls_during m st = [c].
Proof.
  intros H. unfold calls_during. rewrite H.
  rewrite drop_app_length. reflexivity.
Qed.

Lemma calls_during_quiet {A} (m : M A) (st : state) :
  extract_log (m st).2 = extract_log st ->
  calls_during m st = [].
Proof.
  intros H. unfold calls_during. rewrite H. apply drop_all.
Qed.

(** [extract_abbreviation] by the kind of its location. *)
Lemma extract_abbreviation_cases (loc : Location) (opt : option ref) (st : state) :
  extract_abbreviation syntax emmet fuel view loc opt st
  = match loc with
    | LInt pt => resolve_and_scan syntax emmet fuel view opt pt (line view pt) st
    | LRegion r => resolve_and_scan syntax emmet fuel view opt (end_ r) r st
    | LSeq (x :: y :: _) =>
        resolve_and_scan syntax emmet fuel view opt
          (end_ (mkRegion x y)) (mkRegion x y) st
    | LSeq _ => (Raise IndexError, st)
    | LOther => (Ret None, st)
    end.
Proof.
  destruct loc as [pt|[|x [|y rng]]|r|]; reflexivity.
Qed.

(** The options are either resolved without a scanner call, or the call
    ends there. *)
Lemma resolve_and_scan_cases (opt : option ref) (pt : Z) (region : Region)
    (st : state) :
  let run := resolve_and_scan syntax emmet fuel view opt pt region st in
  (exists o st1,
      extract_log st1 = extract_log st
      /\ run = scan_with emmet (substr view region) (pt - begin region)
                 (begin region) o st1)
  \/ (extract_log run.2 = extract_log st /\ forall x, run.1 <> Ret x).
Proof.
  cbn zeta. unfold resolve_and_scan, bind.
  assert (quiet (from_option ret (get_options syntax emmet fuel view pt false) opt)) as Hq.
  { destruct opt; cbn; [apply quiet_ret | apply quiet_get_options]. }
  specialize (Hq st).
  destruct (from_option ret _ opt st) as [[o|e|] st1]; cbn in Hq.
  - left. exists o, st1. split; [exact Hq | reflexivity].
  - right. split; [exact Hq | discriminate].
  - right. split; [exact Hq | discriminate].
Qed.

(** The one call [scan_with] can make, and what is returned after it. *)
Lemma scan_with_calls (text : string) (pos begin : Z) (o : ref) (st : state)
    (c : ExtractCall) :
  c ∈ calls_during (scan_with emmet text pos begin o) st ->
  exists type,
    (heap st !!! o) !! "type" = Some type
    /\ call_options c
       = (if eq_str type "stylesheet"
          then <[ "lookAhead" := VBool false ]> (heap st !!! o)
          else heap st !!! o)
    /\ call_text c = text /\ call_pos c = pos /\ call_opt c = o
    /\ call_result c = extract emmet text pos (call_options c)
    /\ (scan_with emmet text pos begin o st).1
       = match call_result c with
         | inl e => Raise e
         | inr (Some m) =>
             Ret (Some (mkAbbrData (abbreviation m) (start m + begin)
                          (end' m + begin) (location m + begin), o))
         | inr None => Ret None
         end.
Proof.
  unfold calls_during. rewrite scan_with_run. cbn zeta.
  destruct ((heap st !!! o) !! "type") as [type|]; cbn.
  - assert (forall st', extract_log st' = extract_log st ->
              forall call, c ∈ drop (length (extract_log st))
                                 (extract_log (log_extract call st')) -> c = call) as Hone.
    { intros st' Hlog call. cbn. rewrite Hlog, drop_app_length.
      intros Hin. apply list_elem_of_singleton in Hin. exact Hin. }
    intros Hin. exists type. split; [reflexivity|].
    destruct (eq_str type "stylesheet"); apply Hone in Hin; try reflexivity;
      subst c; cbn; repeat split.
  - rewrite drop_all. intros Hin. apply elem_of_nil in Hin. contradiction.
Qed.

(** The calls of a whole extraction are those of its scan. *)
Lemma extraction_calls (loc : Location) (opt : option ref) (st : state)
    (c : ExtractCall) :
  c ∈ calls_during (extract_abbreviation syntax emmet fuel view loc opt) st ->
  exists pt region o st1,
    match loc with
    | LInt p => pt = p /\ region = line view p
    | LRegion r => pt = end_ r /\ region = r
    | LSeq (x :: y :: _) => pt = end_ (mkRegion x y) /\ region = mkRegion x y
    | _ => False
    end
    /\ (forall o', opt = Some o' -> o = o' /\ st1 = st)
    /\ extract_abbreviation syntax emmet fuel view loc opt st
       = scan_with emmet (substr view region) (pt - begin region) (begin region) o st1
    /\ c ∈ calls_during
             (scan_with emmet (substr view region) (pt - begin region) (begin region) o)
             st1.
Proof.
  unfold calls_during at 1. rewrite extract_abbreviation_cases.
  assert (forall pt region,
    c ∈ drop (length (extract_log st))
          (extract_log (resolve_and_scan syntax emmet fuel view opt pt region st).2) ->
    exists o st1,
      (forall o', opt = Some o' -> o = o' /\ st1 = st)
      /\ resolve_and_scan syntax emmet fuel view opt pt region st
         = scan_with emmet (substr view region) (pt - begin region) (begin region) o st1
      /\ c ∈ calls_during
               (scan_with emmet (substr view region) (pt - begin region)
                  (begin region) o) st1) as Hscan.
  { intros pt region Hin.
    destruct opt as [o'|].
    - exists o', st. split; [intros ? [= <-]; by split|]. split; [reflexivity|].
      exact Hin.
    - destruct (resolve_and_scan_cases None pt region st)
        as [(o & st1 & Hlog & Hrun)|[Hlog _]].
      + exists o, st1. split; [discriminate|]. split; [exact Hrun|].
        unfold calls_during. rewrite Hlog, <- Hrun. exact Hin.
      + rewrite Hlog, drop_all in Hin. apply elem_of_nil in Hin. contradiction. }
  destruct loc as [p|[|x [|y rng]]|r|]; cbn [snd];
    try (rewrite drop_all; intros Hin; apply elem_of_nil in Hin; contradiction);
    intros Hin; apply Hscan in Hin as (o & st1 & Hopt & Hrun & Hin);
    eexists _, _, o, st1; (split; [split; reflexivity|]);
    (split; [exact Hopt|]); (split; [exact Hrun | exact Hin]).
Qed.

End Extraction.

(** C1: in every call of the scanner made by [extract_abbreviation],
    options of type [stylesheet] carry [lookAhead] set to [False],
    whether they were resolved or supplied and whatever the caller had
    stored under [lookAhead]. *)
Theorem stylesheet_disables_look_ahead (syntax : Syntax) (emmet : Emmet)
    (fuel : nat) (view : View) (loc : Location) (opt : option ref) (st : state)
    (c : ExtractCall) :
  c ∈ calls_during (extract_abbreviation syntax emmet fuel view loc opt) st ->
  call_options c !! "type" = Some (VStr "stylesheet") ->
  call_options c !! "lookAhead" = Some (VBool false).
Proof.
  intros Hin Htype.
  apply extraction_calls in Hin as (pt & region & o & st1 & _ & _ & _ & Hin).
  apply scan_with_calls in Hin as (type & Hty & Hopts & _).
  rewrite Hopts in *.
  destruct (eq_str type "stylesheet") eqn:E.
  - apply lookup_insert_eq.
  - rewrite Hty in Htype. injection Htype as ->. discriminate.
Qed.

Lemma stylesheet_disables_look_ahead_witness :
  exists c,
    calls_during
      (extract_abbreviation Sample.css_syntax Sample.engine 0
         (Sample.plain_view "m10") (LInt 3) (Some 2%positive))
      Sample.with_options = [c]
    /\ Sample.stylesheet_options !! "lookAhead" = Some (VBool true)
    /\ call_options c !! "lookAhead" = Some (VBool false).
Proof.
  eexists. split; [vm_compute; reflexivity|]. split; [reflexivity|].
  apply (stylesheet_disables_look_ahead Sample.css_syntax Sample.engine 0
           (Sample.plain_view "m10") (LInt 3) (Some 2%positive) Sample.with_options).
  - vm_compute. apply list_elem_of_here.
  - reflexivity.
Defined.

(** Options resolved from the syntax of a stylesheet reach the scanner
    the same way. *)
Example resolved_stylesheet_options :
  exists c,
    calls_during
      (extract_abbreviation Sample.css_syntax Sample.engine 0
         (Sample.plain_view "m10") (LInt 3) None)
      Sample.init = [c]
    /\ call_options c !! "type" = Some (VStr "stylesheet")
    /\ call_options c !! "lookAhead" = Some (VBool false).
Proof. eexists. split; [vm_compute; reflexivity|]. split; reflexivity. Qed.

(** C2: over an explicit range, a match the scanner reports at the
    relative offsets [start], [end], [location] is returned with each of
    the three moved by the start of the range. *)
Theorem range_match_translated (syntax : Syntax) (emmet : Emmet) (fuel : nat)
    (view : View) (loc : Location) (r : Region) (opt : option ref) (st : state)
    (c : ExtractCall) (m : AbbrData) :
  explicit_range loc r ->
  c ∈ calls_during (extract_abbreviation syntax emmet fuel view loc opt) st ->
  call_result c = inr (Some m) ->
  call_text c = substr view r
  /\ call_pos c = end_ r - begin r
  /\ exists o,
       (extract_abbreviation syntax emmet fuel view loc opt st).1
       = Ret (Some (mkAbbrData (abbreviation m) (start m + begin r)
                      (end' m + begin r) (location m + begin r), o)).
Proof.
  intros Hrange Hin Hres.
  apply extraction_calls in Hin as (pt & region & o & st1 & Hloc & _ & Hrun & Hin).
  apply scan_with_calls in Hin as (type & _ & _ & Htext & Hpos & _ & _ & Hout).
  assert (pt = end_ r /\ region = r) as [-> ->].
  { destruct Hrange as [-> | [rest ->]]; [exact Hloc|].
    destruct r as [x y]. exact Hloc. }
  split; [exact Htext|]. split; [exact Hpos|].
  exists o. rewrite Hrun, Hout, Hres. reflexivity.
Qed.

Lemma range_match_translated_witness :
  exists c m o,
    calls_during
      (extract_abbreviation Sample.css_syntax Sample.engine 0
         (Sample.plain_view "color: m10") (LSeq [7; 10]) None)
      Sample.init = [c]
    /\ call_result c = inr (Some m)
    /\ (start m, end' m, location m) = (0, 3, 3)
    /\ (extract_abbreviation Sample.css_syntax Sample.engine 0
          (Sample.plain_view "color: m10") (LSeq [7; 10]) None Sample.init).1
       = Ret (Some (mkAbbrData "m10" 7 10 10, o)).
Proof.
  eexists _, (mkAbbrData "m10" 0 3 3), _.
  split; [vm_compute; reflexivity|]. split; [reflexivity|]. split; [reflexivity|].
  edestruct (range_match_translated Sample.css_syntax Sample.engine 0
               (Sample.plain_view "color: m10") (LSeq [7; 10]) (mkRegion 7 10)
               None Sample.init) as (_ & _ & o & Hout).
  - right. exists []. reflexivity.
  - vm_compute. apply list_elem_of_here.
  - reflexivity.
  - vm_compute. reflexivity.
Defined.

(** C10, as the code has it: when the location is an offset, a region,
    or a list or tuple of at least two items, options of type
    [stylesheet] supplied by the caller are changed in the caller's own
    dictionary: after the call it holds [lookAhead = False], also when
    the scanner raises; no other object is touched, the scanner is given
    that same object and a match is returned with it. *)
Theorem stylesheet_options_mutated_in_place (syntax : Syntax) (emmet : Emmet)
    (fuel : nat) (view : View) (loc : Location) (o : ref)
    (d : gmap string value) (st : state) :
  scannable loc = true ->
  heap st !! o = Some d ->
  d !! "type" = Some (VStr "stylesheet") ->
  let run := extract_abbreviation syntax emmet fuel view loc (Some o) st in
  heap run.2 !! o = Some (<[ "lookAhead" := VBool false ]> d)
  /\ (forall l, l <> o -> heap run.2 !! l = heap st !! l)
  /\ (forall m o', run.1 = Ret (Some (m, o')) -> o' = o)
  /\ exists c,
       calls_during (extract_abbreviation syntax emmet fuel view loc (Some o)) st = [c]
       /\ call_opt c = o
       /\ call_options c = <[ "lookAhead" := VBool false ]> d.
Proof.
  intros Hloc Ho Htype. cbn zeta.
  assert (heap st !!! o = d) as Hd by (apply lookup_total_correct; exact Ho).
  assert (exists text pos begin,
            extract_abbreviation syntax emmet fuel view loc (Some o) st
            = scan_with emmet text pos begin o st) as (text & pos & begin & Hrun).
  { rewrite extract_abbreviation_cases.
    destruct loc as [p|[|x [|y rng]]|r|]; try discriminate; eexists _, _, _; reflexivity. }
  unfold calls_during. rewrite Hrun, scan_with_run. cbn zeta.
  rewrite Hd, Htype. cbn.
  split; [apply lookup_insert_eq|].
  split; [intros l Hl; apply lookup_insert_ne; congruence|].
  split.
  - intros m o'. destruct (extract emmet text pos _) as [e|[m'|]]; [discriminate| |discriminate].
    intros [= _ <-]. reflexivity.
  - eexists. rewrite drop_app_length. split; [reflexivity|]. split; reflexivity.
Qed.

Lemma stylesheet_options_mutated_in_place_witness :
  Sample.stylesheet_options !! "lookAhead" = Some (VBool true)
  /\ heap (extract_abbreviation Sample.css_syntax Sample.engine 0
             (Sample.plain_view "m10") (LInt 3) (Some 2%positive)
             Sample.with_options).2 !! 2%positive
     = Some (<[ "lookAhead" := VBool false ]> Sample.stylesheet_options).
Proof.
  split; [reflexivity|].
  apply (stylesheet_options_mutated_in_place Sample.css_syntax Sample.engine 0
           (Sample.plain_view "m10") (LInt 3) 2%positive Sample.stylesheet_options
           Sample.with_options); reflexivity.
Defined.

(** C10, as the specification words it, fails for a location that is
    none of the kinds the function scans, and for a list too short to be
    a range: the call is over before the options are looked at, and the
    caller's dictionary still asks for look-ahead. *)
Lemma unscannable_location_keeps_options :
  let run loc :=
    extract_abbreviation Sample.css_syntax Sample.engine 0
      (Sample.plain_view "m10") loc (Some 2%positive) Sample.with_options in
  heap Sample.with_options !! 2%positive = Some Sample.stylesheet_options
  /\ Sample.stylesheet_options !! "type" = Some (VStr "stylesheet")
  /\ (run LOther).1 = Ret None
  /\ heap (run LOther).2 !! 2%positive = Some Sample.stylesheet_options
  /\ (run (LSeq [3])).1 = Raise IndexError
  /\ heap (run (LSeq [3])).2 !! 2%positive = Some Sample.stylesheet_options
  /\ Sample.stylesheet_options !! "lookAhead" = Some (VBool true)
  /\ Sample.stylesheet_options !! "lookAhead" <> Some (VBool false).
Proof. cbn zeta. repeat split. discriminate. Qed.

(** * Further properties of the adapter *)

(** ** Escaping of plain text *)

Lemma dollars_escaped_escape (escaped : bool) (text : string) :
  dollars_escaped_from escaped (escape_text text) = true.
Proof.
  revert escaped. induction text as [|c rest IH]; intros escaped; [reflexivity|].
  cbn [escape_text]. destruct (Ascii.eqb c "$") eqn:E.
  - cbn. apply IH.
  - cbn [dollars_escaped_from]. rewrite E. cbn. apply IH.
Qed.

(** In the text [escape_text] returns every [$] stands directly after a
    backslash; the text has grown by one character for each [$], and
    holds as many [$] as before. *)
Theorem escape_text_escapes_every_dollar (text : string) :
  dollars_escaped (escape_text text) = true
  /\ String.length (escape_text text)
     = (String.length text + Py.count_char "$" text)%nat
  /\ Py.count_char "$" (escape_text text) = Py.count_char "$" text.
Proof.
  split; [apply dollars_escaped_escape|].
  induction text as [|c rest [IHlen IHcount]]; [split; reflexivity|].
  cbn [escape_text]. rewrite (Ascii.eqb_sym c "$").
  destruct (Ascii.eqb "$" c) eqn:E; cbn [String.length Py.count_char];
    rewrite ?E; cbn; rewrite IHlen, IHcount; split; lia.
Qed.

(** [escape_text] returns its argument unchanged exactly when the
    argument has no [$]. *)
Theorem escape_text_fixes_plain_text (text : string) :
  String.eqb (escape_text text) text = negb (Py.char_in "$" text).
Proof.
  induction text as [|c rest IH]; [reflexivity|].
  cbn [escape_text Py.char_in]. rewrite (Ascii.eqb_sym c "$").
  destruct (Ascii.eqb "$" c) eqn:E.
  - apply Ascii.eqb_eq in E. subst c. reflexivity.
  - cbn [String.eqb]. rewrite Ascii.eqb_refl. exact IH.
Qed.

Lemma escape_text_first (text : string) :
  Py.first_char (escape_text text) <> Some "$"%char.
Proof.
  destruct text as [|c rest]; cbn; [discriminate|].
  destruct (Ascii.eqb c "$") eqn:E; cbn; [discriminate|].
  intros [= ->]. discriminate.
Qed.

(** Two texts with the same escaped form are the same text. *)
Theorem escape_text_injective (s t : string) :
  escape_text s = escape_text t -> s = t.
Proof.
  revert t. induction s as [|c s IH]; intros [|d t]; cbn [escape_text].
  - reflexivity.
  - destruct (Ascii.eqb d "$"); discriminate.
  - destruct (Ascii.eqb c "$"); discriminate.
  - destruct (Ascii.eqb c "$") eqn:Ec, (Ascii.eqb d "$") eqn:Ed.
    + apply Ascii.eqb_eq in Ec, Ed. subst. intros [= H]. f_equal. apply IH, H.
    + intros [= <- H]. exfalso.
      apply (escape_text_first t). rewrite <- H. reflexivity.
    + intros [= -> H]. exfalso.
      apply (escape_text_first s). rewrite H. reflexivity.
    + intros [= <- H]. f_equal. apply IH, H.
Qed.

Lemma escape_text_injective_witness :
  escape_text "a$b" = "a\$b" /\ "a$b" = "a$b".
Proof.
  split; [reflexivity|].
  apply (escape_text_injective "a$b" "a$b"). reflexivity.
Defined.

(** ** Ranges and regions *)

(** [to_region] fails on fewer than two items and on nothing else; it
    takes the first two items as the ends, in the order given, so that
    [begin] and [end] are the smaller and the larger, and the two items
    themselves when they come in order. *)
Theorem to_region_ends (rng : list Z) :
  ((length rng < 2)%nat /\ to_region rng = Raise IndexError)
  \/ exists x y rest r,
       rng = x :: y :: rest
       /\ to_region rng = Ret r
       /\ a r = x /\ b r = y
       /\ begin r = Z.min x y /\ end_ r = Z.max x y
       /\ (x <= y -> begin r = x /\ end_ r = y).
Proof.
  destruct rng as [|x [|y rest]]; [left; cbn; split; [lia|reflexivity]..|].
  right. exists x, y, rest, (mkRegion x y). unfold begin, end_. cbn.
  repeat split; lia.
Qed.

(** A comprehension over ranges fails exactly when one of them is too
    short; otherwise it gives one region for each range, in order. *)
Lemma for_each_to_region (found : list (list Z)) :
  (Exists (fun rng => (length rng < 2)%nat) found
   /\ for_each to_region found = Raise IndexError)
  \/ exists regions,
       for_each to_region found = Ret regions
       /\ Forall2 (fun rng r => exists rest, rng = a r :: b r :: rest) found regions.
Proof.
  induction found as [|rng found IH]; [right; exists []; split; [reflexivity|constructor]|].
  cbn [for_each].
  destruct rng as [|x [|y rest]];
    [left; split; [left; cbn; lia | reflexivity]..|].
  cbn. destruct IH as [[Hshort ->]|(regions & -> & Hall)].
  - left. split; [right; exact Hshort | reflexivity].
  - right. exists (mkRegion x y :: regions). split; [reflexivity|].
    constructor; [exists rest; reflexivity | exact Hall].
Qed.

Section ActionFacts.

Context {ItemInfo SectionInfo PropertyInfo : Type}.
Context (utils : @ActionUtils ItemInfo SectionInfo PropertyInfo).

(** [select_item] asks the stylesheet or the markup helper, as [is_css]
    says.  Nothing found stays nothing.  A found model keeps what it
    carries and gets one region for each of its ranges, in order, with
    the two ends of the range; a range with fewer than two items makes
    the call raise [IndexError]. *)
Theorem select_item_regions (code : string) (pos : Z) (is_css is_previous : bool) :
  match (if is_css
         then select_item_css utils code pos is_previous
         else select_item_html utils code pos is_previous) with
  | None => select_item utils code pos is_css is_previous = Ret None
  | Some model =>
      (Exists (fun rng => (length rng < 2)%nat) (ranges model)
       /\ select_item utils code pos is_css is_previous = Raise IndexError)
      \/ exists regions,
           select_item utils code pos is_css is_previous
           = Ret (Some (mkSelectItemModel _ (item_info model) regions))
           /\ length regions = length (ranges model)
           /\ Forall2 (fun rng r => exists rest, rng = a r :: b r :: rest)
                (ranges model) regions
  end.
Proof.
  unfold select_item.
  destruct (if is_css then _ else _) as [model|]; [|reflexivity].
  destruct (for_each_to_region (ranges model)) as [[Hshort ->]|(regions & -> & Hall)].
  - left. split; [exact Hshort | reflexivity].
  - right. exists regions. split; [reflexivity|].
    split; [symmetry; eapply Forall2_length; exact Hall | exact Hall].
Qed.

(** A property either has a short range, and its conversion raises, or
    is converted. *)
Lemma convert_property_cases (p : @CSSProperty PropertyInfo (list Z)) :
  (short_ranged p /\ convert_property p = Raise IndexError)
  \/ exists q, convert_property p = Ret q /\ property_converted p q.
Proof.
  unfold convert_property, short_ranged, property_converted.
  destruct p as [i name value tokens]. cbn.
  destruct name as [|n1 [|n2 name]];
    [left; split; [left; cbn; lia | reflexivity]..|].
  destruct value as [|v1 [|v2 value]];
    [left; split; [right; left; cbn; lia | reflexivity]..|].
  cbn. destruct (for_each_to_region tokens) as [[Hshort ->]|(regions & -> & Hall)].
  - left. split; [right; right; exact Hshort | reflexivity].
  - right. eexists. split; [reflexivity|]. cbn.
    split; [reflexivity|]. split; [exists name; reflexivity|].
    split; [exists value; reflexivity | exact Hall].
Qed.

Lemma for_each_convert_property (found : list (@CSSProperty PropertyInfo (list Z))) :
  (Exists short_ranged found
   /\ for_each convert_property found = Raise IndexError)
  \/ exists converted,
       for_each convert_property found = Ret converted
       /\ Forall2 property_converted found converted.
Proof.
  induction found as [|p found IH]; [right; exists []; split; [reflexivity|constructor]|].
  cbn [for_each].
  destruct (convert_property_cases p) as [[Hshort ->]|(q & -> & Hq)].
  - left. split; [left; exact Hshort | reflexivity].
  - cbn. destruct IH as [[Hshort ->]|(converted & -> & Hall)].
    + left. split; [right; exact Hshort | reflexivity].
    + right. exists (q :: converted). split; [reflexivity|].
      constructor; [exact Hq | exact Hall].
Qed.

(** [css_section] returns no section when none is found, and a section
    without parsed properties as it is.  Parsed properties are converted
    one for one and in order, each keeping what it carries and getting
    regions for its name, its value and each token of the value; one
    range with fewer than two items anywhere makes the call raise
    [IndexError]. *)
Theorem css_section_regions (code : string) (pos : Z) (with_properties : bool) :
  match get_css_section utils code pos with_properties with
  | None => css_section utils code pos with_properties = Ret None
  | Some section =>
      match properties section with
      | None =>
          css_section utils code pos with_properties
          = Ret (Some (mkCSSSection _ (section_info section) None))
      | Some found =>
          (Exists short_ranged found
           /\ css_section utils code pos with_properties = Raise IndexError)
          \/ exists converted,
               css_section utils code pos with_properties
               = Ret (Some (mkCSSSection _ (section_info section) (Some converted)))
               /\ length converted = length found
               /\ Forall2 property_converted found converted
      end
  end.
Proof.
  unfold css_section.
  destruct (get_css_section utils code pos with_properties) as [section|]; [|reflexivity].
  destruct (properties section) as [[|p found]|]; [| |reflexivity].
  - right. exists []. repeat split. constructor.
  - destruct (for_each_convert_property (p :: found))
      as [[Hshort ->]|(converted & -> & Hall)].
    + left. split; [exact Hshort | reflexivity].
    + right. exists converted. split; [reflexivity|].
      split; [symmetry; eapply Forall2_length; exact Hall | exact Hall].
Qed.

End ActionFacts.

(** The sample helpers: two ranges become two regions, a one-item range
    raises, and the property of the sample section is converted. *)
Example select_item_sample :
  select_item Fixture.utils "a { color: red }" 0 true false
    = Ret (Some (mkSelectItemModel _ tt [mkRegion 4 9; mkRegion 11 14]))
  /\ select_item Fixture.utils "<a b>" 0 false false = Raise IndexError
  /\ css_section Fixture.utils "a { color: red }" 5 true
     = Ret (Some (mkCSSSection _ tt
                    (Some [mkCSSProperty _ tt (mkRegion 4 9) (mkRegion 11 14)
                             [mkRegion 11 14]])))
  /\ css_section Fixture.utils "a { color: red }" 5 false
     = Ret (Some (mkCSSSection _ tt None)).
Proof. repeat split. Qed.

(** ** Settings and the cache *)

(** The settings are loaded by the first call of [get_settings] and kept:
    a further call reads the handle loaded before and changes nothing, so
    the listener is registered once.  A key that is not stored gives the
    default.  No call touches the store of objects or the cache. *)
Theorem get_settings_loads_once (host : Host) (key1 key2 : string)
    (dflt1 dflt2 : value) (st : state) :
  let handle := default (load_settings host "Emmet.sublime-settings") (settings st) in
  let first := get_settings host key1 dflt1 st in
  let second := get_settings host key2 dflt2 first.2 in
  first.1 = Ret (default dflt1 (handle !! key1))
  /\ settings first.2 = Some handle
  /\ on_change first.2
     = match settings st with
       | Some _ => on_change st
       | None => ("config", On_handle_settings_change) :: on_change st
       end
  /\ heap first.2 = heap st
  /\ emmet_cache first.2 = emmet_cache st
  /\ second.1 = Ret (default dflt2 (handle !! key2))
  /\ second.2 = first.2.
Proof.
  unfold get_settings, bind, gets, modify, ret. cbn.
  destruct st as [h c [loaded|] l log]; cbn; repeat split.
Qed.

(** [handle_settings_change] rebinds the cache and does nothing else:
    the new cache is an object that did not exist before, every object
    that did, the former cache among them, keeps its content, and the
    loaded settings and the registered listeners stay. *)
Theorem settings_change_rebinds (st : state) :
  let st' := (handle_settings_change st).2 in
  heap st !! emmet_cache st' = None
  /\ (forall l d, heap st !! l = Some d -> heap st' !! l = Some d)
  /\ (forall l, l <> emmet_cache st' -> heap st' !! l = heap st !! l)
  /\ settings st' = settings st
  /\ on_change st' = on_change st
  /\ extract_log st' = extract_log st.
Proof.
  cbn.
  assert (heap st !! fresh (dom (heap st)) = None) as Hfresh
    by (apply not_elem_of_dom, is_fresh).
  split; [exact Hfresh|].
  split; [|split; [|repeat split]].
  - intros l d Hl. rewrite lookup_insert_ne; [exact Hl|].
    intros <-. rewrite Hfresh in Hl. discriminate.
  - intros l Hl. apply lookup_insert_ne. congruence.
Qed.

(** A cache that remembers an abbreviation is still there, under its old
    reference, after the notification; the module no longer points to it. *)
Example warm_cache_survives :
  let st' := (handle_settings_change Fixture.warm_cache).2 in
  heap st' !! 1%positive = Some {[ "ul>li" := VStr "parsed" ]}
  /\ emmet_cache st' = 2%positive
  /\ heap st' !! 2%positive = Some ∅.
Proof. vm_compute. repeat split. Qed.

(** ** Expansion with an active view *)

Ltac heap_lookups :=
  repeat first
    [ rewrite lookup_insert_eq
    | rewrite lookup_total_insert_eq
    | rewrite lookup_insert_ne by congruence
    | rewrite lookup_total_insert_ne by congruence ].

(** With a view, [expand] reaches the engine.  It hands over two new
    dictionaries, the options and, inside them, the output options, and
    the stored [config] entry. *)
Lemma expand_reaches_engine (emmet : Emmet) (view : View)
    (stored : string -> gmap string value) (abbr : string)
    (config : option ref) (st : state) (cfg given : gmap string value) :
  config_in st config cfg given ->
  let preview := truthy (heap st) (dict_get cfg "preview" (VBool false)) in
  let inline := truthy (heap st) (dict_get cfg "inline" VNone) in
  let handle := default (stored "Emmet.sublime-settings") (settings st) in
  exists opt out st',
    expand (mkHost (Some view) stored) emmet abbr config st
    = expand_abbreviation emmet abbr opt (dict_get handle "config" VNone) st'
    /\ heap st !! opt = None /\ heap st !! out = None /\ opt <> out
    /\ heap st' !! opt
       = Some (<[ "options" := VRef out ]> (cfg ∪ {[ "cache" := VRef (emmet_cache st) ]}))
    /\ heap st' !! out = Some (given ∪ default_output preview inline)
    /\ (forall l, l <> opt -> l <> out -> heap st' !! l = heap st !! l)
    /\ emmet_cache st' = emmet_cache st
    /\ settings st' = Some handle
    /\ extract_log st' = extract_log st.
Proof.
  intros Hcfg. cbn zeta.
  set (opt := fresh (dom (heap st))).
  set (out := fresh (dom (<[opt := ({[ "cache" := VRef (emmet_cache st) ]} : gmap string value)]> (heap st)))).
  assert (heap st !! opt = None) as Hopt by (apply not_elem_of_dom, is_fresh).
  assert (out ∉ dom (<[opt := ({[ "cache" := VRef (emmet_cache st) ]} : gmap string value)]> (heap st))) as Hout' by apply is_fresh.
  assert (opt <> out) as Hne.
  { intros E. apply Hout'. rewrite <- E. set_solver. }
  assert (heap st !! out = None) as Hout.
  { apply not_elem_of_dom. intros E. apply Hout'. set_solver. }
  exists opt, out.
  assert (exists l0 : ref, heap st !! opt = None) as _ by (exists opt; exact Hopt).
  destruct config as [l|]; cbn in Hcfg.
  - destruct Hcfg as [Hl Hgiven].
    assert (heap st !!! l = cfg) as Hd by (apply lookup_total_correct; exact Hl).
    assert (l <> opt) as Hlo by congruence.
    assert (l <> out) as Hlu by congruence.
    unfold expand, get_settings, update, setitem, getitem, deref, new_dict, bind,
      gets, modify, ret, raise. cbn. fold opt. fold out. rewrite Hd.
    destruct (decide (cfg = ∅)) as [E|E].
    + rewrite E in *. clear E. rewrite bool_decide_eq_true_2 by reflexivity. cbn.
      rewrite lookup_empty in Hgiven. subst given.
      cbn; destruct (settings st) as [handle|] eqn:Es; cbn; rewrite ?Es; cbn;
        (eexists; split; [reflexivity|]); cbn;
        (split; [exact Hopt|]); (split; [exact Hout|]); (split; [exact Hne|]);
        heap_lookups; rewrite ?(left_id_L ∅ (∪));
        (split; [reflexivity|]); (split; [reflexivity|]);
        (split; [intros l' ? ?; heap_lookups; reflexivity|]); repeat split; exact Es.
    + rewrite bool_decide_eq_false_2 by exact E. cbn.
      destruct (cfg !! "options") as [v|] eqn:Eo.
      * destruct v; try contradiction.
        assert (heap st !!! l0 = given) as Hg by (apply lookup_total_correct; exact Hgiven).
        assert (l0 <> opt) by congruence. assert (l0 <> out) by congruence.
        unfold dict_get. rewrite Eo. cbn.
        cbn; destruct (settings st) as [handle|] eqn:Es; cbn; rewrite ?Es; cbn;
          (eexists; split; [reflexivity|]); cbn;
          (split; [exact Hopt|]); (split; [exact Hout|]); (split; [exact Hne|]);
          heap_lookups; rewrite ?Hd, ?Hg;
          (split; [reflexivity|]); (split; [reflexivity|]);
          (split; [intros l' ? ?; heap_lookups; reflexivity|]); repeat split; exact Es.
      * subst given.
        cbn; destruct (settings st) as [handle|] eqn:Es; cbn; rewrite ?Es; cbn;
          (eexists; split; [reflexivity|]); cbn;
          (split; [exact Hopt|]); (split; [exact Hout|]); (split; [exact Hne|]);
          heap_lookups; rewrite ?Hd, ?(left_id_L ∅ (∪));
          (split; [reflexivity|]); (split; [reflexivity|]);
          (split; [intros l' ? ?; heap_lookups; reflexivity|]); repeat split; exact Es.
  - destruct Hcfg as [-> ->].
    unfold expand, get_settings, update, setitem, getitem, deref, new_dict, bind,
      gets, modify, ret, raise. cbn. fold opt. fold out.
    cbn; destruct (settings st) as [handle|] eqn:Es; cbn; rewrite ?Es; cbn;
      (eexists; split; [reflexivity|]); cbn;
      (split; [exact Hopt|]); (split; [exact Hout|]); (split; [exact Hne|]);
      heap_lookups; rewrite !(left_id_L ∅ (∪));
      (split; [reflexivity|]); (split; [reflexivity|]);
      (split; [intros l' ? ?; heap_lookups; reflexivity|]); repeat split; exact Es.
Qed.

(** Before it calls the engine, [expand] changes no object that exists:
    the caller's configuration, the dictionary under its [options] key,
    the shared cache and all others keep their content.  The options it
    hands over are a new object, the module still points to the same
    cache, and no scanner is called. *)
Theorem expand_keeps_objects (emmet : Emmet) (view : View)
    (stored : string -> gmap string value) (abbr : string)
    (config : option ref) (st : state) (cfg given : gmap string value) :
  config_in st config cfg given ->
  exists opt g st',
    expand (mkHost (Some view) stored) emmet abbr config st
    = expand_abbreviation emmet abbr opt g st'
    /\ heap st !! opt = None
    /\ (forall l d, heap st !! l = Some d -> heap st' !! l = Some d)
    /\ emmet_cache st' = emmet_cache st
    /\ extract_log st' = extract_log st.
Proof.
  intros Hcfg.
  destruct (expand_reaches_engine emmet view stored abbr config st cfg given Hcfg)
    as (opt & out & st' & Hrun & Hopt & Hout & _ & _ & _ & Hframe & Hcache & _ & Hlog).
  eexists opt, _, st'. split; [exact Hrun|]. split; [exact Hopt|].
  split; [|split; assumption].
  intros l d Hl. rewrite Hframe; [exact Hl | congruence | congruence].
Qed.

Lemma expand_keeps_objects_witness :
  exists opt g st',
    expand (mkHost (Some (Sample.plain_view "")) (fun _ => ∅)) Sample.engine "p"
      (Some 2%positive) Sample.with_preview
    = expand_abbreviation Sample.engine "p" opt g st'
    /\ heap Sample.with_preview !! opt = None
    /\ (forall l d, heap Sample.with_preview !! l = Some d -> heap st' !! l = Some d)
    /\ emmet_cache st' = emmet_cache Sample.with_preview
    /\ extract_log st' = extract_log Sample.with_preview.
Proof.
  apply (expand_keeps_objects Sample.engine (Sample.plain_view "") (fun _ => ∅) "p"
           (Some 2%positive) Sample.with_preview {[ "preview" := VBool true ]} ∅).
  split; reflexivity.
Defined.

(** The options handed to the engine hold every entry of the caller's
    configuration but [options], the caller's entries winning over the
    default; the shared cache stands under [cache] unless the caller
    brought one; under [options] stands a new dictionary, never the
    caller's own; the global configuration is the stored [config] entry,
    [None] without one. *)
Theorem expand_merges_config (emmet : Emmet) (view : View)
    (stored : string -> gmap string value) (abbr : string)
    (config : option ref) (st : state) (cfg given : gmap string value) :
  config_in st config cfg given ->
  exists opt out merged st',
    expand (mkHost (Some view) stored) emmet abbr config st
    = expand_abbreviation emmet abbr opt
        (default VNone
           (default (stored "Emmet.sublime-settings") (settings st) !! "config"))
        st'
    /\ heap st' !! opt = Some merged
    /\ (forall key v, key <> "options" -> cfg !! key = Some v -> merged !! key = Some v)
    /\ (forall key, key <> "options" -> key <> "cache" -> cfg !! key = None ->
          merged !! key = None)
    /\ (cfg !! "cache" = None -> merged !! "cache" = Some (VRef (emmet_cache st)))
    /\ merged !! "options" = Some (VRef out)
    /\ heap st !! out = None.
Proof.
  intros Hcfg.
  destruct (expand_reaches_engine emmet view stored abbr config st cfg given Hcfg)
    as (opt & out & st' & Hrun & _ & Hout & _ & Hopt & _).
  eexists opt, out, _, st'. split; [exact Hrun|]. split; [exact Hopt|].
  split; [|split; [|split; [|split]]].
  - intros key v Hkey Hv. rewrite lookup_insert_ne by congruence.
    apply lookup_union_Some_l. exact Hv.
  - intros key Hkey Hcache Hv. rewrite lookup_insert_ne by congruence.
    apply lookup_union_None. split; [exact Hv|].
    apply lookup_singleton_ne. congruence.
  - intros Hv. rewrite lookup_insert_ne by discriminate.
    rewrite lookup_union_r by exact Hv. apply lookup_singleton_eq.
  - apply lookup_insert_eq.
  - exact Hout.
Qed.

Lemma expand_merges_config_witness :
  exists opt out merged st',
    expand (mkHost (Some (Sample.plain_view "")) (fun _ => ∅)) Sample.engine "p"
      (Some 2%positive) Sample.with_preview
    = expand_abbreviation Sample.engine "p" opt VNone st'
    /\ heap st' !! opt = Some merged
    /\ merged !! "preview" = Some (VBool true)
    /\ merged !! "cache" = Some (VRef 1%positive)
    /\ merged !! "options" = Some (VRef out).
Proof.
  destruct (expand_merges_config Sample.engine (Sample.plain_view "") (fun _ => ∅) "p"
              (Some 2%positive) Sample.with_preview {[ "preview" := VBool true ]} ∅)
    as (opt & out & merged & st' & Hrun & Hopt & Hkeep & _ & Hcache & Hoptions & _).
  { split; reflexivity. }
  exists opt, out, merged, st'. split; [exact Hrun|]. split; [exact Hopt|].
  split; [apply Hkeep; [discriminate | reflexivity]|].
  split; [apply Hcache; reflexivity | exact Hoptions].
Defined.

(** The output options handed to the engine are the defaults with the
    caller's [options] entries laid over them.  By default [output.field]
    is [field_preview] when the configuration's [preview] entry is true
    and [field] otherwise, [output.text] is [escape_text], and
    [output.format] is true unless the [inline] entry is true. *)
Theorem expand_output_options (emmet : Emmet) (view : View)
    (stored : string -> gmap string value) (abbr : string)
    (config : option ref) (st : state) (cfg given : gmap string value) :
  config_in st config cfg given ->
  exists opt out output g st',
    expand (mkHost (Some view) stored) emmet abbr config st
    = expand_abbreviation emmet abbr opt g st'
    /\ (heap st' !!! opt) !! "options" = Some (VRef out)
    /\ heap st' !! out = Some output
    /\ (forall key v, given !! key = Some v -> output !! key = Some v)
    /\ (given !! "output.field" = None ->
        output !! "output.field"
        = Some (VFunc (if truthy (heap st) (dict_get cfg "preview" (VBool false))
                       then Fn_field_preview else Fn_field)))
    /\ (given !! "output.text" = None ->
        output !! "output.text" = Some (VFunc Fn_escape_text))
    /\ (given !! "output.format" = None ->
        output !! "output.format"
        = Some (VBool (negb (truthy (heap st) (dict_get cfg "inline" VNone))))).
Proof.
  intros Hcfg.
  destruct (expand_reaches_engine emmet view stored abbr config st cfg given Hcfg)
    as (opt & out & st' & Hrun & _ & _ & _ & Hopt & Hout & _).
  eexists opt, out, _, _, st'. split; [exact Hrun|].
  split.
  { rewrite (lookup_total_correct _ _ _ Hopt). apply lookup_insert_eq. }
  split; [exact Hout|].
  split; [intros key v Hv; apply lookup_union_Some_l; exact Hv|].
  unfold default_output.
  split; [|split]; intros Hv; rewrite lookup_union_r by exact Hv.
  - apply lookup_insert_eq.
  - rewrite lookup_insert_ne by discriminate. apply lookup_insert_eq.
  - rewrite !lookup_insert_ne by discriminate. apply lookup_insert_eq.
Qed.

Lemma expand_output_options_witness :
  exists opt out output g st',
    expand (mkHost (Some (Sample.plain_view "")) (fun _ => ∅)) Sample.engine "p"
      (Some 2%positive) Sample.with_preview
    = expand_abbreviation Sample.engine "p" opt g st'
    /\ (heap st' !!! opt) !! "options" = Some (VRef out)
    /\ heap st' !! out = Some output
    /\ output !! "output.field" = Some (VFunc Fn_field_preview)
    /\ output !! "output.format" = Some (VBool true).
Proof.
  destruct (expand_output_options Sample.engine (Sample.plain_view "") (fun _ => ∅) "p"
              (Some 2%positive) Sample.with_preview {[ "preview" := VBool true ]} ∅)
    as (opt & out & output & g & st' & Hrun & Hoptions & Hout & _ & Hfield & _ & Hformat).
  { split; reflexivity. }
  exists opt, out, output, g, st'. split; [exact Hrun|]. split; [exact Hoptions|].
  split; [exact Hout|].
  split; [apply Hfield; reflexivity | apply Hformat; reflexivity].
Defined.

Lemma config_in_kept (st st' : state) (config : option ref)
    (cfg given : gmap string value) :
  (forall l d, heap st !! l = Some d -> heap st' !! l = Some d) ->
  config_in st config cfg given -> config_in st' config cfg given.
Proof.
  intros Hkept. destruct config as [l|]; cbn; [|auto].
  intros [Hl Hgiven]. split; [apply Hkept, Hl|].
  destruct (cfg !! "options") as [[]|]; auto.
Qed.

(** After a settings change, the next expansion of a configuration that
    brings no cache of its own hands the engine a cache that is empty
    and did not exist before the change. *)
Theorem expand_after_settings_change (emmet : Emmet) (view : View)
    (stored : string -> gmap string value) (abbr : string)
    (config : option ref) (st : state) (cfg given : gmap string value) :
  config_in st config cfg given ->
  cfg !! "cache" = None ->
  exists opt cache g st',
    expand (mkHost (Some view) stored) emmet abbr config (handle_settings_change st).2
    = expand_abbreviation emmet abbr opt g st'
    /\ (heap st' !!! opt) !! "cache" = Some (VRef cache)
    /\ heap st' !! cache = Some ∅
    /\ heap st !! cache = None.
Proof.
  intros Hcfg Hcache.
  set (st1 := (handle_settings_change st).2).
  assert (heap st !! emmet_cache st1 = None) as Hnew
    by (apply not_elem_of_dom, is_fresh).
  assert (heap st1 !! emmet_cache st1 = Some ∅) as Hempty by apply lookup_insert_eq.
  assert (config_in st1 config cfg given) as Hcfg1.
  { apply (config_in_kept st); [|exact Hcfg].
    intros l d Hl. cbn. rewrite lookup_insert_ne; [exact Hl|].
    intros E. cbn in Hnew. rewrite E, Hl in Hnew. discriminate. }
  destruct (expand_reaches_engine emmet view stored abbr config st1 cfg given Hcfg1)
    as (opt & out & st' & Hrun & Hopt & Hout & _ & Hmerged & _ & Hframe & _).
  eexists opt, (emmet_cache st1), _, st'. split; [exact Hrun|].
  split; [|split; [|exact Hnew]].
  - rewrite (lookup_total_correct _ _ _ Hmerged).
    rewrite lookup_insert_ne by discriminate.
    rewrite lookup_union_r by exact Hcache. apply lookup_singleton_eq.
  - rewrite Hframe; [exact Hempty | congruence | congruence].
Qed.

Lemma expand_after_settings_change_witness :
  exists opt cache g st',
    expand (mkHost (Some (Sample.plain_view "")) (fun _ => ∅)) Sample.engine "p" None
      (handle_settings_change Fixture.warm_cache).2
    = expand_abbreviation Sample.engine "p" opt g st'
    /\ (heap st' !!! opt) !! "cache" = Some (VRef cache)
    /\ heap st' !! cache = Some ∅
    /\ heap Fixture.warm_cache !! cache = None.
Proof.
  apply (expand_after_settings_change Sample.engine (Sample.plain_view "") (fun _ => ∅)
           "p" None Fixture.warm_cache ∅ ∅).
  - split; reflexivity.
  - reflexivity.
Defined.

(** An empty dictionary as configuration is the same as none, on every
    host. *)
Theorem expand_empty_config (host : Host) (emmet : Emmet) (abbr : string)
    (l : ref) (st : state) :
  heap st !! l = Some ∅ ->
  expand host emmet abbr (Some l) st = expand host emmet abbr None st.
Proof.
  intros Hl.
  assert (heap st !!! l = (∅ : gmap string value)) as Hd
    by (apply lookup_total_correct; exact Hl).
  unfold expand, bind, gets, deref, ret. cbn.
  rewrite Hd. rewrite bool_decide_eq_true_2 by reflexivity. reflexivity.
Qed.

Lemma expand_empty_config_witness :
  expand Sample.one_view Sample.field_probe "p" (Some 1%positive) Sample.init
  = expand Sample.one_view Sample.field_probe "p" None Sample.init.
Proof.
  apply (expand_empty_config Sample.one_view Sample.field_probe "p" 1%positive Sample.init).
  reflexivity.
Defined.

(** ** More on the extraction of abbreviations *)

Section ExtractionFacts.

Context (syntax : Syntax) (emmet : Emmet) (fuel : nat) (view : View).

(** With options supplied, the extraction is the scan of its target. *)
Lemma extract_supplied_run (loc : Location) (o : ref) (st : state)
    (pt : Z) (region : Region) :
  scan_target view loc = Some (pt, region) ->
  extract_abbreviation syntax emmet fuel view loc (Some o) st
  = scan_with emmet (substr view region) (pt - begin region) (begin region) o st.
Proof.
  intros Ht. rewrite extract_abbreviation_cases.
  destruct loc as [p|[|x [|y rng]]|r|]; cbn in Ht; try discriminate;
    injection Ht as <- <-; reflexivity.
Qed.

Lemma scannable_target (loc : Location) :
  scannable loc = true -> exists pt region, scan_target view loc = Some (pt, region).
Proof.
  destruct loc as [p|[|x [|y rng]]|r|]; cbn; try discriminate; eauto.
Qed.

(** What [get_options] does without context: one new dictionary, built
    from what the syntax reports. *)
Lemma get_options_plain_run (pt : Z) (st : state) :
  let o := fresh (dom (heap st)) in
  let reported := info syntax view pt "html" in
  get_options syntax emmet fuel view pt false st
  = match reported !! "syntax" with
    | Some syn =>
        (Ret o, set_heap (<[ o := built_options syntax view pt reported syn ]> (heap st)) st)
    | None =>
        (Raise (KeyError "syntax"),
         set_heap (<[ o := <[ "inline" := VBool (is_inline syntax view pt) ]> reported ]>
                     (heap st)) st)
    end.
Proof.
  cbn zeta. unfold get_options, setitem, getitem, deref, new_dict, bind, gets,
    modify, ret, raise, built_options. cbn.
  rewrite !lookup_total_insert_eq, !insert_insert_eq.
  rewrite lookup_insert_ne by discriminate.
  destruct (info syntax view pt "html" !! "syntax") as [syn|]; [|reflexivity].
  destruct (is_jsx syntax syn); cbn; [|reflexivity].
  rewrite !lookup_total_insert_eq, !insert_insert_eq. reflexivity.
Qed.

Lemma scan_with_log (text : string) (pos begin : Z) (o : ref) (st : state) :
  extract_log (scan_with emmet text pos begin o st).2 = extract_log st
  \/ exists c,
       extract_log (scan_with emmet text pos begin o st).2
       = (extract_log st ++ [c])%list.
Proof.
  rewrite scan_with_run. cbn zeta.
  destruct ((heap st !!! o) !! "type") as [type|]; [|left; reflexivity].
  right. destruct (eq_str type "stylesheet"); eexists; reflexivity.
Qed.

(** An extraction calls the scanner once at most. *)
Theorem extraction_calls_scanner_once (loc : Location) (opt : option ref) (st : state) :
  (length (calls_during (extract_abbreviation syntax emmet fuel view loc opt) st) <= 1)%nat.
Proof.
  unfold calls_during. rewrite extract_abbreviation_cases.
  assert (forall pt region,
            (length (drop (length (extract_log st))
                       (extract_log
                          (resolve_and_scan syntax emmet fuel view opt pt region st).2))
             <= 1)%nat) as Hscan.
  { intros pt region.
    destruct (resolve_and_scan_cases syntax emmet fuel view opt pt region st)
      as [(o & st1 & Hlog & ->)|[-> _]]; [|rewrite drop_all; cbn; lia].
    destruct (scan_with_log (substr view region) (pt - begin region) (begin region) o st1)
      as [->|[c ->]]; rewrite Hlog.
    - rewrite drop_all. cbn. lia.
    - rewrite drop_app_length. cbn. lia. }
  destruct loc as [p|[|x [|y rng]]|r|]; try apply Hscan;
    cbn [snd]; rewrite drop_all; cbn; lia.
Qed.

(** For an offset the line around it is scanned: the scanner gets the
    text of the line and the offset counted from the start of the line,
    and a match is returned with its three offsets moved by that start. *)
Theorem line_match_translated (pt : Z) (opt : option ref) (st : state)
    (c : ExtractCall) :
  c ∈ calls_during (extract_abbreviation syntax emmet fuel view (LInt pt) opt) st ->
  call_text c = substr view (line view pt)
  /\ call_pos c = pt - begin (line view pt)
  /\ forall m,
       call_result c = inr (Some m) ->
       exists o,
         (extract_abbreviation syntax emmet fuel view (LInt pt) opt st).1
         = Ret (Some (mkAbbrData (abbreviation m)
                        (start m + begin (line view pt))
                        (end' m + begin (line view pt))
                        (location m + begin (line view pt)), o)).
Proof.
  intros Hin.
  apply extraction_calls in Hin as (p & region & o & st1 & [-> ->] & _ & Hrun & Hin).
  apply scan_with_calls in Hin as (type & _ & _ & Htext & Hpos & _ & _ & Hout).
  split; [exact Htext|]. split; [exact Hpos|].
  intros m Hm. exists o. rewrite Hrun, Hout, Hm. reflexivity.
Qed.

(** What the scanner raises, the extraction raises; when the scanner
    finds nothing the extraction returns [None]. *)
Theorem scanner_outcome_passed_on (loc : Location) (opt : option ref) (st : state)
    (c : ExtractCall) :
  c ∈ calls_during (extract_abbreviation syntax emmet fuel view loc opt) st ->
  match call_result c with
  | inl e => (extract_abbreviation syntax emmet fuel view loc opt st).1 = Raise e
  | inr None => (extract_abbreviation syntax emmet fuel view loc opt st).1 = Ret None
  | inr (Some m) =>
      exists found o,
        (extract_abbreviation syntax emmet fuel view loc opt st).1 = Ret (Some (found, o))
        /\ abbreviation found = abbreviation m
        /\ end' found - start found = end' m - start m
        /\ location found - start found = location m - start m
  end.
Proof.
  intros Hin.
  apply extraction_calls in Hin as (p & region & o & st1 & _ & _ & Hrun & Hin).
  apply scan_with_calls in Hin as (type & _ & _ & _ & _ & _ & _ & Hout).
  rewrite Hrun, Hout.
  destruct (call_result c) as [e|[m|]]; [reflexivity| |reflexivity].
  eexists _, o. split; [reflexivity|]. cbn. repeat split; lia.
Qed.

(** Options without a [type] entry: the extraction raises [KeyError]
    before the scanner is called and leaves everything as it was. *)
Theorem options_without_type (loc : Location) (o : ref) (d : gmap string value)
    (st : state) :
  scannable loc = true ->
  heap st !! o = Some d ->
  d !! "type" = None ->
  extract_abbreviation syntax emmet fuel view loc (Some o) st
  = (Raise (KeyError "type"), st).
Proof.
  intros Hloc Ho Htype.
  destruct (scannable_target loc Hloc) as (pt & region & Ht).
  rewrite (extract_supplied_run loc o st pt region Ht), scan_with_run. cbn zeta.
  rewrite (lookup_total_correct _ _ _ Ho), Htype. reflexivity.
Qed.

(** Options of any type but [stylesheet] are only read: the scanner gets
    them as the caller left them, and the store after the call is the
    store before it. *)
Theorem other_options_untouched (loc : Location) (o : ref) (d : gmap string value)
    (type : value) (st : state) :
  scannable loc = true ->
  heap st !! o = Some d ->
  d !! "type" = Some type ->
  type <> VStr "stylesheet" ->
  heap (extract_abbreviation syntax emmet fuel view loc (Some o) st).2 = heap st
  /\ exists c,
       calls_during (extract_abbreviation syntax emmet fuel view loc (Some o)) st = [c]
       /\ call_opt c = o
       /\ call_options c = d.
Proof.
  intros Hloc Ho Htype Hne.
  destruct (scannable_target loc Hloc) as (pt & region & Ht).
  unfold calls_during.
  rewrite (extract_supplied_run loc o st pt region Ht), scan_with_run. cbn zeta.
  rewrite (lookup_total_correct _ _ _ Ho), Htype.
  destruct (eq_str type "stylesheet") eqn:E.
  { apply eq_str_true in E. contradiction. }
  cbn. split; [reflexivity|].
  eexists. rewrite drop_app_length. repeat split.
Qed.

(** Without options from the caller the extraction builds its own: no
    object that exists is changed, and the options returned with a match
    are a new object. *)
Theorem resolved_options_are_new (loc : Location) (st : state) :
  let run := extract_abbreviation syntax emmet fuel view loc None st in
  (forall l d, heap st !! l = Some d -> heap run.2 !! l = Some d)
  /\ forall m o,
       run.1 = Ret (Some (m, o)) ->
       heap st !! o = None /\ is_Some (heap run.2 !! o).
Proof.
  cbn zeta. rewrite extract_abbreviation_cases.
  assert (forall pt region,
    let run := resolve_and_scan syntax emmet fuel view None pt region st in
    (forall l d, heap st !! l = Some d -> heap run.2 !! l = Some d)
    /\ forall m o,
         run.1 = Ret (Some (m, o)) ->
         heap st !! o = None /\ is_Some (heap run.2 !! o)) as Hscan.
  { intros pt region. cbn zeta. unfold resolve_and_scan, bind. cbn [from_option].
    rewrite get_options_plain_run. cbn zeta.
    assert (heap st !! fresh (dom (heap st)) = None) as Hfresh
      by (apply not_elem_of_dom, is_fresh).
    set (o := fresh (dom (heap st))) in *.
    assert (forall x l d, heap st !! l = Some d ->
              <[o := x]> (heap st) !! l = Some d) as Hkeep.
    { intros x l d Hl. rewrite lookup_insert_ne; [exact Hl | congruence]. }
    destruct (info syntax view pt "html" !! "syntax") as [syn|]; cbn.
    - rewrite scan_with_run. cbn zeta. cbn [heap set_heap].
      rewrite lookup_total_insert_eq.
      destruct (built_options syntax view pt _ syn !! "type") as [type|]; cbn.
      + split.
        * intros l d Hl. destruct (eq_str type "stylesheet"); cbn.
          -- rewrite lookup_insert_ne by congruence. apply Hkeep, Hl.
          -- apply Hkeep, Hl.
        * intros m o'. destruct (extract emmet _ _ _) as [e|[found|]];
            [discriminate| |discriminate].
          intros [= _ <-]. split; [exact Hfresh|].
          destruct (eq_str type "stylesheet"); cbn; rewrite lookup_insert_eq; eauto.
      + split; [intros l d Hl; apply Hkeep, Hl | discriminate].
    - split; [intros l d Hl; apply Hkeep, Hl | discriminate]. }
  destruct loc as [p|[|x [|y rng]]|r|]; try apply Hscan;
    cbn; (split; [auto | discriminate]).
Qed.

End ExtractionFacts.

Lemma line_match_translated_witness :
  exists c o,
    calls_during
      (extract_abbreviation Sample.css_syntax Sample.engine 0
         (Sample.plain_view "m10") (LInt 3) None)
      Sample.init = [c]
    /\ call_text c = "m10"
    /\ call_pos c = 3
    /\ (extract_abbreviation Sample.css_syntax Sample.engine 0
          (Sample.plain_view "m10") (LInt 3) None Sample.init).1
       = Ret (Some (mkAbbrData "m10" 0 3 3, o)).
Proof.
  eexists _, _. split; [vm_compute; reflexivity|].
  edestruct (line_match_translated Sample.css_syntax Sample.engine 0
               (Sample.plain_view "m10") 3 None Sample.init) as (Htext & Hpos & Hmatch).
  { vm_compute. apply list_elem_of_here. }
  split; [exact Htext|]. split; [exact Hpos|].
  vm_compute. reflexivity.
Defined.

Lemma scanner_outcome_passed_on_witness :
  (extract_abbreviation Sample.css_syntax Fixture.failing_engine 0
     (Sample.plain_view "m10") (LInt 3) (Some 2%positive) Sample.with_options).1
  = Raise (EngineError "unexpected character").
Proof.
  eapply (scanner_outcome_passed_on Sample.css_syntax Fixture.failing_engine 0
            (Sample.plain_view "m10") (LInt 3) (Some 2%positive) Sample.with_options
            (mkExtractCall "m10" 3 2%positive
               (<[ "lookAhead" := VBool false ]> Sample.stylesheet_options)
               (inl (EngineError "unexpected character")))).
  vm_compute. apply list_elem_of_here.
Defined.

Lemma options_without_type_witness :
  extract_abbreviation Sample.css_syntax Sample.engine 0 (Sample.plain_view "m10")
    (LInt 3) (Some 1%positive) Sample.init
  = (Raise (KeyError "type"), Sample.init).
Proof.
  apply (options_without_type Sample.css_syntax Sample.engine 0 (Sample.plain_view "m10")
           (LInt 3) 1%positive ∅ Sample.init); reflexivity.
Defined.

Lemma other_options_untouched_witness :
  heap (extract_abbreviation Sample.css_syntax Sample.engine 0 (Sample.plain_view "div")
          (LSeq [0; 3]) (Some 2%positive) Fixture.with_markup).2
  = heap Fixture.with_markup
  /\ Fixture.markup_options !! "lookAhead" = Some (VBool true).
Proof.
  split; [|reflexivity].
  apply (other_options_untouched Sample.css_syntax Sample.engine 0
           (Sample.plain_view "div") (LSeq [0; 3]) 2%positive Fixture.markup_options
           (VStr "markup") Fixture.with_markup); try reflexivity.
  discriminate.
Defined.

(** ** Options and context *)

Section OptionFacts.

Context (syntax : Syntax) (emmet : Emmet) (fuel : nat) (view : View).

(** Without context [get_options] changes no object that exists.  When
    the syntax reports no [syntax] entry it raises [KeyError]; otherwise
    it returns a new dictionary with what the syntax reported, [inline]
    as the syntax tells for the point and, for JSX, the prefix [<] and
    the [jsx] flag, these three replacing reported entries of the same
    name. *)
Theorem get_options_builds_new_dict (pt : Z) (st : state) :
  let run := get_options syntax emmet fuel view pt false st in
  let reported := info syntax view pt "html" in
  (forall l d, heap st !! l = Some d -> heap run.2 !! l = Some d)
  /\ match reported !! "syntax" with
     | None => run.1 = Raise (KeyError "syntax")
     | Some syn =>
         exists o built,
           run.1 = Ret o
           /\ heap st !! o = None
           /\ heap run.2 !! o = Some built
           /\ built !! "inline" = Some (VBool (is_inline syntax view pt))
           /\ (if is_jsx syntax syn
               then built !! "prefix" = Some (VStr "<")
                    /\ built !! "jsx" = Some (VBool true)
               else built !! "prefix" = reported !! "prefix"
                    /\ built !! "jsx" = reported !! "jsx")
           /\ forall key,
                key <> "inline" -> key <> "prefix" -> key <> "jsx" ->
                built !! key = reported !! key
     end.
Proof.
  cbn zeta. rewrite get_options_plain_run. cbn zeta.
  assert (heap st !! fresh (dom (heap st)) = None) as Hfresh
    by (apply not_elem_of_dom, is_fresh).
  set (o := fresh (dom (heap st))) in *.
  assert (forall x l d, heap st !! l = Some d ->
            <[o := x]> (heap st) !! l = Some d) as Hkeep.
  { intros x l d Hl. rewrite lookup_insert_ne; [exact Hl | congruence]. }
  destruct (info syntax view pt "html" !! "syntax") as [syn|]; cbn.
  - split; [intros l d Hl; apply Hkeep, Hl|].
    eexists o, _. split; [reflexivity|]. split; [exact Hfresh|].
    split; [apply lookup_insert_eq|].
    unfold built_options. destruct (is_jsx syntax syn).
    + split; [rewrite !lookup_insert_ne by discriminate; apply lookup_insert_eq|].
      split.
      * split; [rewrite lookup_insert_ne by discriminate|]; apply lookup_insert_eq.
      * intros key H1 H2 H3. rewrite !lookup_insert_ne by congruence. reflexivity.
    + split; [apply lookup_insert_eq|].
      split.
      * split; rewrite lookup_insert_ne by discriminate; reflexivity.
      * intros key H1 H2 H3. rewrite !lookup_insert_ne by congruence. reflexivity.
  - split; [intros l d Hl; apply Hkeep, Hl | reflexivity].
Qed.

(** [attach_context] returns the dictionary it was given and changes at
    most its [context] entry: every other entry, every other object, the
    cache, the settings and the scanner log are as before.  Without a
    [type] entry it raises [KeyError] and changes nothing at all. *)
Theorem attach_context_frame (pt : Z) (config : ref) (st : state) :
  let run := attach_context syntax emmet fuel view pt config st in
  (forall r, run.1 = Ret r -> r = config)
  /\ (forall l, l <> config -> heap run.2 !! l = heap st !! l)
  /\ (forall key, key <> "context" ->
        (heap run.2 !!! config) !! key = (heap st !!! config) !! key)
  /\ emmet_cache run.2 = emmet_cache st
  /\ settings run.2 = settings st
  /\ extract_log run.2 = extract_log st
  /\ match (heap st !!! config) !! "type" with
     | None => run = (Raise (KeyError "type"), st)
     | Some _ => True
     end.
Proof.
  cbn zeta.
  unfold attach_context, setitem, getitem, deref, bind, gets, modify, ret, raise, lift.
  cbn.
  assert (forall (x : value) (l : ref),
            l <> config ->
            <[config := <["context" := x]> (heap st !!! config)]> (heap st) !! l
            = heap st !! l) as Hother
    by (intros x l Hl; apply lookup_insert_ne; congruence).
  assert (forall (x : value) (key : string),
            key <> "context" ->
            (<[config := <["context" := x]> (heap st !!! config)]> (heap st) !!! config)
              !! key
            = (heap st !!! config) !! key) as Hkeys
    by (intros x key Hkey; rewrite lookup_total_insert_eq;
        apply lookup_insert_ne; congruence).
  destruct ((heap st !!! config) !! "type") as [type|]; cbn;
    [|repeat split; intros; simplify_eq; auto].
  destruct (eq_str type "stylesheet"); cbn.
  - destruct (get_css_context fuel view pt) as [ctx|e|]; cbn;
      repeat split; intros; simplify_eq; auto.
  - destruct ((heap st !!! config) !! "syntax") as [syn|] eqn:Es; cbn;
      [|repeat split; intros; simplify_eq; auto].
    destruct (is_html syntax syn); cbn; rewrite ?Es; cbn;
      [|repeat split; intros; simplify_eq; auto].
    destruct (get_tag_context syntax emmet view pt (VBool (is_xml syntax syn)))
      as [ctx|e|]; cbn;
      repeat split; intros; simplify_eq; auto.
Qed.

End OptionFacts.

(** On a host that meets the contract of [extract_scope], some number
    of iterations is enough for the walk at any point, and every larger
    number gives the same. *)
Lemma get_css_context_enough (view : View) (pt : Z) :
  scope_contract view ->
  exists enough found,
    forall fuel, (enough <= fuel)%nat -> get_css_context fuel view pt = Ret found.
Proof.
  intros Hscope. unfold get_css_context.
  destruct (match_selector view pt "meta.property-value").
  - set (p := begin (extract_scope view pt) - 1).
    destruct (css_walk_enough view Hscope (Z.to_nat (p + 1)) p) as [r Hr]; [lia|].
    exists (S (Z.to_nat (p + 1))), r. exact Hr.
  - exists O, None. reflexivity.
Qed.

(** For a stylesheet, on a host that meets the contract of
    [extract_scope], [attach_context] finishes: given enough iterations
    of the walk, and with any larger number the same, it returns the
    dictionary it was given and has stored under [context] what
    [get_css_context] finds at the point, the name of the property around
    it or [None].  The tag matcher is not asked. *)
Theorem attach_context_stylesheet (syntax : Syntax) (emmet : Emmet) (view : View)
    (pt : Z) (config : ref) (st : state) :
  scope_contract view ->
  (heap st !!! config) !! "type" = Some (VStr "stylesheet") ->
  exists enough found,
    forall fuel, (enough <= fuel)%nat ->
      get_css_context fuel view pt = Ret found
      /\ (attach_context syntax emmet fuel view pt config st).1 = Ret config
      /\ (heap (attach_context syntax emmet fuel view pt config st).2 !!! config)
           !! "context"
         = Some (match found with Some name => VCss name | None => VNone end).
Proof.
  intros Hscope Htype.
  destruct (get_css_context_enough view pt Hscope) as (enough & found & Hfound).
  exists enough, found. intros fuel Hfuel. specialize (Hfound fuel Hfuel).
  split; [exact Hfound|].
  unfold attach_context, setitem, getitem, deref, bind, gets, modify, ret, raise, lift.
  cbn. rewrite Htype. cbn. rewrite Hfound. cbn.
  split; [reflexivity|].
  rewrite lookup_total_insert_eq, lookup_insert_eq. destruct found; reflexivity.
Qed.

Lemma attach_context_stylesheet_witness :
  (exists enough found,
     forall fuel, (enough <= fuel)%nat ->
       get_css_context fuel Sample.stylesheet 11 = Ret found
       /\ (attach_context Sample.css_syntax Sample.engine fuel Sample.stylesheet 11
             2%positive Sample.with_options).1 = Ret 2%positive
       /\ (heap (attach_context Sample.css_syntax Sample.engine fuel Sample.stylesheet
                   11 2%positive Sample.with_options).2 !!! 2%positive) !! "context"
          = Some (match found with Some name => VCss name | None => VNone end))
  /\ get_css_context 2 Sample.stylesheet 11 = Ret (Some "color").
Proof.
  split; [|reflexivity].
  apply (attach_context_stylesheet Sample.css_syntax Sample.engine Sample.stylesheet
           11 2%positive Sample.with_options).
  - apply scoped_view_contract.
  - reflexivity.
Defined.

(** For a JSX document the options carry the prefix and the flag. *)
Example jsx_options :
  let run := get_options Fixture.jsx_syntax Sample.engine 0 (Sample.plain_view "") 0 false
               Sample.init in
  run.1 = Ret 2%positive
  /\ (heap run.2 !!! 2%positive) !! "prefix" = Some (VStr "<")
  /\ (heap run.2 !!! 2%positive) !! "jsx" = Some (VBool true)
  /\ (heap run.2 !!! 2%positive) !! "inline" = Some (VBool true)
  /\ (heap run.2 !!! 2%positive) !! "type" = Some (VStr "markup").
Proof. vm_compute. repeat split. Qed.

(** ** What the contexts hold *)

Lemma css_walk_found (view : View) (n : nat) (q : Z) (name : string) :
  css_walk n view q = Ret (Some name) ->
  exists p,
    0 <= p
    /\ match_selector view p "meta.property-name" = true
    /\ match_selector view p "section.property-list" = false
    /\ match_selector view p "meta.selector" = false
    /\ name = substr view (extract_scope view p)
    /\ (scope_contract view -> p <= q).
Proof.
  revert q. induction n as [|n IH]; intros q; cbn [css_walk]; [discriminate|].
  destruct (0 <=? q) eqn:Hq; cbn; [|discriminate].
  destruct (match_selector view q "section.property-list") eqn:Hs; cbn; [discriminate|].
  destruct (match_selector view q "meta.selector") eqn:Hm; cbn; [discriminate|].
  destruct (match_selector view q "meta.property-name") eqn:Hn.
  - intros [= <-]. exists q. repeat split; auto; lia.
  - intros H. apply IH in H as (p & Hp & Hname & Hsec & Hsel & Htext & Hle).
    exists p. repeat split; auto.
    intros Hscope. specialize (Hle Hscope). specialize (Hscope q). lia.
Qed.

(** A property name returned by [get_css_context] is the text of a scope
    classified as property name, at a position that is not negative and
    is no section or selector boundary; the point itself lies in a
    property value.  On a host that meets the contract of
    [extract_scope] that position is left of the point. *)
Theorem css_context_is_property_name (fuel : nat) (view : View) (pt : Z)
    (name : string) :
  get_css_context fuel view pt = Ret (Some name) ->
  match_selector view pt "meta.property-value" = true
  /\ exists p,
       0 <= p
       /\ match_selector view p "meta.property-name" = true
       /\ match_selector view p "section.property-list" = false
       /\ match_selector view p "meta.selector" = false
       /\ name = substr view (extract_scope view p)
       /\ (scope_contract view -> 0 <= pt -> p < pt).
Proof.
  unfold get_css_context.
  destruct (match_selector view pt "meta.property-value"); [|discriminate].
  intros H. split; [reflexivity|].
  apply css_walk_found in H as (p & Hp & Hname & Hsec & Hsel & Htext & Hle).
  exists p. repeat split; auto.
  intros Hscope Hpt. specialize (Hle Hscope). specialize (Hscope pt Hpt). lia.
Qed.

Lemma css_context_is_property_name_witness :
  exists p,
    0 <= p < 11
    /\ match_selector Sample.stylesheet p "meta.property-name" = true
    /\ "color" = substr Sample.stylesheet (extract_scope Sample.stylesheet p).
Proof.
  destruct (css_context_is_property_name 2 Sample.stylesheet 11 "color" eq_refl)
    as (_ & p & Hp & Hname & _ & _ & Htext & Hlt).
  exists p. split; [|split; assumption].
  split; [exact Hp|]. apply Hlt; [apply scoped_view_contract | lia].
Defined.

(** The names under which a fold of attributes stores values are the
    names of the attributes. *)
Lemma fold_attributes_dom (attrs : list Attribute)
    (attributes : gmap string (option string)) :
  dom (fold_left add_attribute attrs attributes)
  = list_to_set (attr_name <$> attrs) ∪ dom attributes.
Proof.
  revert attributes. induction attrs as [|attr attrs IH]; intros attributes; cbn.
  - symmetry. apply (left_id_L ∅ (∪)).
  - rewrite IH. unfold add_attribute. rewrite dom_insert_L.
    rewrite (comm_L (∪) {[attr_name attr]} (list_to_set (attr_name <$> attrs))).
    apply (assoc_L (∪)).
Qed.

(** A tag context comes from a tag the matcher found in the whole text
    of the view, with the XML flag given or, without one, that of the
    syntax at the point.  It has the name of the tag and its opening
    range as a region; its attributes are stored under exactly the names
    the tag has, each name with the unquoted value of its last
    occurrence; it has a closing region exactly when the tag has a
    closing range that is not empty. *)
Theorem tag_context_of_match (syntax : Syntax) (emmet : Emmet) (view : View)
    (pt : Z) (xml : value) (ctx : TagContext) :
  get_tag_context syntax emmet view pt xml = Ret (Some ctx) ->
  exists tag,
    html_match emmet (substr view (mkRegion 0 (size view))) pt
      (match xml with
       | VNone => VBool (is_xml syntax (from_pos syntax view pt))
       | _ => xml
       end) = Some tag
    /\ ctx_name ctx = tag_name tag
    /\ to_region (tag_open tag) = Ret (ctx_open ctx)
    /\ dom (ctx_attributes ctx) = list_to_set (attr_name <$> tag_attributes tag)
    /\ (forall earlier attr later,
          tag_attributes tag = (earlier ++ attr :: later)%list ->
          Forall (fun other => attr_name other <> attr_name attr) later ->
          ctx_attributes ctx !! attr_name attr = Some (unquote (attr_value attr)))
    /\ match tag_close tag with
       | Some (x :: y :: _) => ctx_close ctx = Some (mkRegion x y)
       | Some [_] => False
       | _ => ctx_close ctx = None
       end.
Proof.
  unfold get_tag_context.
  destruct (html_match emmet _ pt _) as [tag|] eqn:Em; [|discriminate].
  intros H. exists tag. split; [reflexivity|].
  destruct (to_region (tag_open tag)) as [o|e|] eqn:Eo; cbn in H; try discriminate.
  assert (exists close, ctx = mkTagContext (tag_name tag)
                     (fold_left add_attribute (tag_attributes tag) ∅) o close
                   /\ match tag_close tag with
                      | Some (x :: y :: _) => close = Some (mkRegion x y)
                      | Some [_] => False
                      | _ => close = None
                      end) as (close & -> & Hclose).
  { destruct (tag_close tag) as [[|c [|d range]]|]; cbn in H; try discriminate;
      inversion H; eexists; split; reflexivity. }
  cbn. split; [reflexivity|]. split; [reflexivity|].
  split; [rewrite fold_attributes_dom, dom_empty_L; apply (right_id_L ∅ (∪))|].
  split; [|exact Hclose].
  intros earlier attr later Hsplit Hlater.
  rewrite Hsplit, fold_left_app. cbn.
  apply fold_attributes_lookup. exact Hlater.
Qed.

Lemma tag_context_of_match_witness :
  exists ctx,
    get_tag_context Sample.css_syntax (Sample.tag_engine Sample.sample_tag)
      (Sample.plain_view "") 1 VNone = Ret (Some ctx)
    /\ ctx_name ctx = "a"
    /\ dom (ctx_attributes ctx)
       = list_to_set ["title"; "alt"; "id"; "class"; "hidden"].
Proof.
  eexists. split; [reflexivity|].
  edestruct (tag_context_of_match Sample.css_syntax (Sample.tag_engine Sample.sample_tag)
               (Sample.plain_view "") 1 VNone) as (tag & Hm & Hname & _ & Hdom & _).
  { reflexivity. }
  injection Hm as <-. split; [exact Hname | exact Hdom].
Defined.

(** ** Whole results of the math evaluator *)

Module WholeFacts.
Import Py.

Lemma last_char_counted (c : ascii) (s : string) :
  last_char s = Some c -> (0 < count_char c s)%nat.
Proof.
  induction s as [|d s IH]; cbn; [discriminate|].
  destruct s as [|d' s].
  - intros [= ->]. rewrite Ascii.eqb_refl. cbn. lia.
  - intros H. specialize (IH H). lia.
Qed.

Lemma digits_no_dot (n : N) :
  count_char "." (NilZero.string_of_uint (N.to_uint n)) = O.
Proof.
  unfold NilZero.string_of_uint.
  destruct (N.to_uint n) eqn:E; try reflexivity; rewrite <- E; apply PyFacts.uint_no_dot.
Qed.

Lemma digits_not_empty (n : N) :
  NilZero.string_of_uint (N.to_uint n) <> EmptyString.
Proof.
  unfold NilZero.string_of_uint. destruct (N.to_uint n); cbn; discriminate.
Qed.

Lemma frac4_whole (n : Z) : n mod 10000 = 0 -> frac4 n = "0000".
Proof. unfold frac4. intros ->. reflexivity. Qed.

(** Trimming a number printed with four zeros after the point leaves the
    part before the point. *)
Lemma trim_whole (sign digits : string) :
  digits <> EmptyString ->
  count_char "." digits = O ->
  rstrip "." (rstrip "0" (sign ++ digits ++ "." ++ "0000")) = sign ++ digits.
Proof.
  intros Hne Hdot.
  assert (rstrip "." digits = digits) as Hkeep.
  { apply StripFacts.rstrip_keeps. intros c Hc.
    apply last_char_counted in Hc. cbn.
    destruct (Ascii.eqb c ".") eqn:E; [|reflexivity].
    apply Ascii.eqb_eq in E. subst c. lia. }
  destruct digits as [|d rest]; [contradiction|].
  rewrite (StripFacts.rstrip_app "0" sign), (StripFacts.rstrip_app "0" (String d rest)).
  change (rstrip "0" ("." ++ "0000")) with ".".
  cbn iota.
  change (String d rest ++ ".") with (String d (rest ++ ".")). cbn iota.
  change (String d (rest ++ ".")) with (String d rest ++ ".").
  rewrite (StripFacts.rstrip_app "." sign), (StripFacts.rstrip_app "." (String d rest)).
  change (rstrip "." ".") with EmptyString. cbn iota.
  rewrite Hkeep. reflexivity.
Qed.

End WholeFacts.

(** When the result, rounded to four decimals, is a whole number, zero
    and minus zero among them, the snippet is the sign and the digits of
    that number: it has no point, and the zeros the number ends in are
    kept. *)
Theorem whole_number_snippet (emmet : Emmet) (code : string) (pos : Z)
    (options : value) (r : MathResult) (s : bool) (n : Z) :
  evaluate_math emmet code pos options = Ret (Some r) ->
  rounded4 (math_result r) = Some (s, n) ->
  n mod 10000 = 0 ->
  math_snippet r
  = Py.sign_str s ++ NilZero.string_of_uint (N.to_uint (Z.to_N (n / 10000)))
  /\ Py.char_in "." (math_snippet r) = false.
Proof.
  unfold evaluate_math. intros H Hres Hwhole.
  destruct (extract_math emmet code pos options) as [err|[[a0 b0]|]]; cbn in H;
    try discriminate.
  destruct (evaluate emmet (Py.slice code a0 b0)) as [err|x]; cbn in H; [discriminate|].
  injection H as <-. cbn [math_snippet math_result] in *.
  assert (Py.format_4f x = Py.sign_str s ++ Py.fixed4 n) as ->.
  { destruct x as [z|z| |z m e]; cbn in Hres; try discriminate;
      injection Hres as <- <-; reflexivity. }
  unfold Py.fixed4.
  rewrite (WholeFacts.frac4_whole _ Hwhole).
  rewrite WholeFacts.trim_whole
    by (apply WholeFacts.digits_not_empty || apply WholeFacts.digits_no_dot).
  split; [reflexivity|].
  apply PyFacts.count_char_zero.
  rewrite PyFacts.count_char_app, WholeFacts.digits_no_dot.
  destruct s; reflexivity.
Qed.

Lemma whole_number_snippet_witness :
  exists r,
    evaluate_math Fixture.hundred_engine "50*2" 4 VNone = Ret (Some r)
    /\ math_snippet r = "100".
Proof.
  eexists. split; [reflexivity|].
  edestruct (whole_number_snippet Fixture.hundred_engine "50*2" 4 VNone _
               false 1000000 eq_refl eq_refl eq_refl) as [H _].
  exact H.
Defined.

(** Zero and minus zero. *)
Example zero_snippets :
  exists plus minus,
    evaluate_math Fixture.zero_engine "1-1" 3 VNone = Ret (Some plus)
    /\ math_snippet plus = "0"
    /\ evaluate_math Fixture.zero_engine "-0" 2 VNone = Ret (Some minus)
    /\ math_snippet minus = "-0".
Proof. eexists _, _. repeat split. Qed.
